(** * grid-gen: printable grid paper generator (src/grid_gen.py)

    A shallow embedding of the pattern generators ([draw_grid], [draw_dots],
    [draw_lined], [draw_hex], [draw_iso]), the panel compositor ([make_panel]),
    the page assembler ([make_page]) and the colour normalisation of [main].

    Python floats are modelled by the real numbers [R]: every arithmetic
    operation is exact, [math.sqrt], [math.sin], [math.cos], [math.tan] are the
    real functions and [math.radians] multiplies by [PI / 180].  A [while] loop
    of the source runs on fuel and yields [None] when the fuel is used up, so a
    loop that never leaves (a spacing of zero) has no result for any fuel.

    Where a property depends on what the floats do, the program is taken up
    twice more: in [b64] on the binary64 numbers themselves, which compute,
    and in [fl] on real numbers with every operation followed by a rounding
    [rnd], of which only the relative error is known. *)

From Stdlib Require Import Floats.
From Stdlib Require Import Reals Lra Lia List String Ascii ZArith Bool.
From Stdlib Require Import DecimalString.
Import ListNotations.
Open Scope R_scope.

(** ** The drawing primitives of the [svg] package

    Only the constructors and keyword arguments that the program uses.  The
    dash pattern, which the source formats into a string of two numbers, is
    kept as the list of those numbers. *)
Module svg.

#[local] Set Warnings "-register-all".

Inductive PathData : Type :=
| M (x y : R)
| L (x y : R)
| Z.

Inductive Transform : Type :=
| Translate (x y : R).

Inductive Element : Type :=
| Line (x1 y1 x2 y2 : R) (stroke : string) (stroke_width : R)
       (stroke_dasharray : option (list R))
| Circle (cx cy r : R) (fill : string)
| Path (d : list PathData) (stroke : string) (stroke_width : R) (fill : string)
| Rect (x y width height : R) (fill : option string)
| ClipPath (id : string) (elements : list Element)
| Defs (elements : list Element)
| G (transform : list Transform) (clip_path : option string)
    (elements : list Element).

Record ViewBoxSpec : Type := mkViewBoxSpec
  { min_x : R; min_y : R; vb_width : R; vb_height : R }.

Record SVG : Type := mkSVG
  { width : R; height : R; viewBox : ViewBoxSpec; elements : list Element }.

End svg.

(** ** Option monad and loops *)

Definition bind {A B : Type} (m : option A) (k : A -> option B) : option B :=
  match m with
  | Some a => k a
  | None => None
  end.

Notation "x <- m ;; k" := (bind m (fun x => k))
  (at level 61, m at next level, right associativity).
Notation "' p <- m ;; k" := (bind m (fun x => match x with p => k end))
  (at level 61, p pattern, m at next level, right associativity).

(** [while cond: body] on a state [S]; one unit of fuel per test of [cond]. *)
Fixpoint while {S : Type} (fuel : nat) (cond : S -> bool)
    (body : S -> option S) (s : S) : option S :=
  match fuel with
  | O => None
  | Datatypes.S fuel' =>
      if cond s then s' <- body s ;; while fuel' cond body s' else Some s
  end.

(** [for x in xs: body], threading the state. *)
Fixpoint for_each {A S : Type} (xs : list A) (body : A -> S -> option S)
    (s : S) : option S :=
  match xs with
  | [] => Some s
  | x :: xs' => s' <- body x s ;; for_each xs' body s'
  end.

(** The comparison [a <= b] of two floats. *)
Definition Rleb (a b : R) : bool := if Rle_dec a b then true else false.

Infix "<=?" := Rleb (at level 70, no associativity) : R_scope.

(** Truth value of an integer used as a condition. *)
Definition truthy (n : nat) : bool := negb (Nat.eqb n 0).

(** ** Unit conversion *)

Definition PAGE_W_MM : R := 215.9.
Definition PAGE_H_MM : R := 279.4.

Definition MM_PER_PT : R := 25.4 / 72.

Definition mm (val : R) : R := val / MM_PER_PT.

Definition radians (deg : R) : R := deg * PI / 180.

(** ** Pattern generators *)

Definition draw_grid (fuel : nat) (w h size line_width : R) (color : string)
    : option (list svg.Element) :=
  let elements := [] in
  let step := mm size in
  let sw := mm line_width in
  let pw := mm w in
  let ph := mm h in
  (* Vertical lines *)
  let x := 0 in
  '(elements, x) <-
    while fuel (fun '(_, x) => x <=? pw + 0.01)
      (fun '(elements, x) =>
         Some (elements ++ [svg.Line x 0 x ph color sw None], x + step))
      (elements, x) ;;
  (* Horizontal lines *)
  let y := 0 in
  '(elements, y) <-
    while fuel (fun '(_, y) => y <=? ph + 0.01)
      (fun '(elements, y) =>
         Some (elements ++ [svg.Line 0 y pw y color sw None], y + step))
      (elements, y) ;;
  Some elements.

Definition draw_dots (fuel : nat) (w h size line_width : R) (color : string)
    : option (list svg.Element) :=
  let elements := [] in
  let step := mm size in
  let r := mm line_width / 2 in
  let pw := mm w in
  let ph := mm h in
  let x := 0 in
  '(elements, x) <-
    while fuel (fun '(_, x) => x <=? pw + 0.01)
      (fun '(elements, x) =>
         let y := 0 in
         '(elements, y) <-
           while fuel (fun '(_, y) => y <=? ph + 0.01)
             (fun '(elements, y) =>
                Some (elements ++ [svg.Circle x y r color], y + step))
             (elements, y) ;;
         Some (elements, x + step))
      (elements, x) ;;
  Some elements.

Definition draw_lined (fuel : nat) (w h size line_width : R) (color : string)
    : option (list svg.Element) :=
  let elements := [] in
  let step := mm size in
  let sw := mm line_width in
  let pw := mm w in
  let ph := mm h in
  let y := step in
  '(elements, y) <-
    while fuel (fun '(_, y) => y <=? ph + 0.01)
      (fun '(elements, y) =>
         Some (elements ++ [svg.Line 0 y pw y color sw None], y + step))
      (elements, y) ;;
  Some elements.

(** The body of the inner loop of [draw_hex]: the six vertices of the hexagon
    centred at [(cx, cy)], then move-to the first, line-to the others, close.
    [pts[0]] fails on an empty list. *)
Definition hex_subpath (s cx cy : R) (path_data : list svg.PathData)
    : option (list svg.PathData) :=
  let pts :=
    map (fun i : nat =>
           let angle := radians (60 * INR i) in
           let px := cx + s * cos angle in
           let py := cy + s * sin angle in
           (px, py))
        (seq 0 6) in
  match pts with
  | [] => None
  | p0 :: rest =>
      let path_data := path_data ++ [svg.M (fst p0) (snd p0)] in
      let path_data :=
        fold_left (fun pd '(px, py) => pd ++ [svg.L px py]) rest path_data in
      Some (path_data ++ [svg.Z])
  end.

Definition draw_hex (fuel : nat) (w h size line_width : R) (color : string)
    : option (list svg.Element) :=
  let s := mm size in
  let sw := mm line_width in
  let pw := mm w in
  let ph := mm h in
  (* Flat-top hex geometry *)
  let hex_w := s * 2 in
  let hex_h := s * sqrt 3 in
  let col_step := hex_w * 0.75 in
  let row_step := hex_h in
  let path_data := [] in
  let col := 0%nat in
  let cx := 0 in
  '(path_data, col, cx) <-
    while fuel (fun '(_, _, cx) => cx - s <=? pw)
      (fun '(path_data, col, cx) =>
         let row_offset := if truthy (col mod 2) then hex_h / 2 else 0 in
         let cy := row_offset in
         '(path_data, cy) <-
           while fuel (fun '(_, cy) => cy - hex_h / 2 <=? ph)
             (fun '(path_data, cy) =>
                path_data <- hex_subpath s cx cy path_data ;;
                Some (path_data, cy + row_step))
             (path_data, cy) ;;
         Some (path_data, (col + 1)%nat, cx + col_step))
      (path_data, col, cx) ;;
  Some [svg.Path path_data color sw "none"].

Definition draw_iso (fuel : nat) (w h size line_width : R) (color : string)
    : option (list svg.Element) :=
  let sw := mm line_width in
  let pw := mm w in
  let ph := mm h in
  let spacing := mm size in
  let elements := [] in
  (* Horizontal lines *)
  let y := 0 in
  '(elements, y) <-
    while fuel (fun '(_, y) => y <=? ph + 0.01)
      (fun '(elements, y) =>
         Some (elements ++ [svg.Line 0 y pw y color sw None], y + spacing))
      (elements, y) ;;
  (* Lines at +60 degrees *)
  let dx := spacing / sin (radians 60) in
  let dy_per_dx := tan (radians 60) in
  let start := - ph / dy_per_dx in
  let x := start in
  '(elements, x) <-
    while fuel (fun '(_, x) => x <=? pw)
      (fun '(elements, x) =>
         let '(x1, y1) := (x, ph) in
         let '(x2, y2) := (x + ph / dy_per_dx, 0) in
         Some (elements ++ [svg.Line x1 y1 x2 y2 color sw None], x + dx))
      (elements, x) ;;
  (* Lines at -60 degrees *)
  let x := start in
  '(elements, x) <-
    while fuel (fun '(_, x) => x <=? pw)
      (fun '(elements, x) =>
         let '(x1, y1) := (x, 0) in
         let '(x2, y2) := (x + ph / dy_per_dx, ph) in
         Some (elements ++ [svg.Line x1 y1 x2 y2 color sw None], x + dx))
      (elements, x) ;;
  Some elements.

(** The type of the five generators, and the dispatch table.  The command line
    restricts [--type] to the five keys, so the key is an enumeration. *)
Definition draw_fn_t : Type :=
  nat -> R -> R -> R -> R -> string -> option (list svg.Element).

Inductive pattern_type : Type := grid | dots | hex | lined | iso.

Definition DRAW_FNS (t : pattern_type) : draw_fn_t :=
  match t with
  | grid => draw_grid
  | dots => draw_dots
  | hex => draw_hex
  | lined => draw_lined
  | iso => draw_iso
  end.

(** ** Panel compositor *)

Definition make_panel (draw_fn : draw_fn_t) (fuel : nat)
    (panel_w_mm panel_h_mm offset_x offset_y margin_mm size line_width : R)
    (color clip_id : string) : option (list svg.Element) :=
  let inner_w := panel_w_mm - 2 * margin_mm in
  let inner_h := panel_h_mm - 2 * margin_mm in
  let margin_pt := mm margin_mm in
  pattern_elements <- draw_fn fuel inner_w inner_h size line_width color ;;
  let clip :=
    svg.ClipPath clip_id [svg.Rect 0 0 (mm inner_w) (mm inner_h) None] in
  let group :=
    svg.G [svg.Translate (offset_x + margin_pt) (offset_y + margin_pt)] None
      [ svg.Defs [clip];
        svg.G [] (Some ("url(#" ++ clip_id ++ ")")%string) pattern_elements ] in
  Some [group].

(** ** Page assembler *)

Inductive orientation_t : Type := portrait | landscape.
Inductive layout_t : Type := full | half | quarter.

(** The parsed command line; the three choice options are enumerations. *)
Record Args : Type := mkArgs
  { type : pattern_type;
    size : R;
    line_width : R;
    color : string;
    orientation : orientation_t;
    layout : layout_t;
    margin : R;
    output : string }.

(** [f"clip-{i}"] *)
Definition clip_name (i : nat) : string :=
  ("clip-" ++ NilEmpty.string_of_uint (Nat.to_uint i))%string.

(** [enumerate(xs)] *)
Definition enumerate {A : Type} (xs : list A) : list (nat * A) :=
  combine (seq 0 (List.length xs)) xs.

Definition make_page (fuel : nat) (args : Args) : option svg.SVG :=
  let '(page_w_mm, page_h_mm) :=
    match orientation args with
    | landscape => (PAGE_H_MM, PAGE_W_MM)
    | portrait => (PAGE_W_MM, PAGE_H_MM)
    end in
  let page_w := mm page_w_mm in
  let page_h := mm page_h_mm in
  let draw_fn := DRAW_FNS (type args) in
  let elements := [] in
  (* White background *)
  let elements :=
    elements ++ [svg.Rect 0 0 page_w page_h (Some "white"%string)] in
  let fold_lines := [] in
  let fold_color := "#999999"%string in
  let fold_width := mm 0.2 in
  let fold_dash := [mm 2; mm 2] in
  '(elements, fold_lines) <-
    match layout args with
    | full =>
        panel <- make_panel draw_fn fuel page_w_mm page_h_mm 0 0
                   (margin args) (size args) (line_width args) (color args)
                   "clip-0" ;;
        Some (elements ++ panel, fold_lines)
    | half =>
        let half_w := page_w_mm / 2 in
        elements <-
          for_each (seq 0 2)
            (fun i elements =>
               let ox := mm half_w * INR i in
               panel <- make_panel draw_fn fuel half_w page_h_mm ox 0
                          (margin args) (size args) (line_width args)
                          (color args) (clip_name i) ;;
               Some (elements ++ panel))
            elements ;;
        (* Vertical fold line at center *)
        let cx := page_w / 2 in
        Some (elements,
              fold_lines ++
              [svg.Line cx 0 cx page_h fold_color fold_width (Some fold_dash)])
    | quarter =>
        let half_w := page_w_mm / 2 in
        let half_h := page_h_mm / 2 in
        elements <-
          for_each (enumerate [(0, 0); (1, 0); (0, 1); (1, 1)]%nat)
            (fun '(i, (col, row)) elements =>
               let ox := mm half_w * INR col in
               let oy := mm half_h * INR row in
               panel <- make_panel draw_fn fuel half_w half_h ox oy
                          (margin args) (size args) (line_width args)
                          (color args) (clip_name i) ;;
               Some (elements ++ panel))
            elements ;;
        Some (elements, fold_lines)
    end ;;
  let elements := elements ++ fold_lines in
  Some (svg.mkSVG page_w page_h (svg.mkViewBoxSpec 0 0 page_w page_h) elements).

(** ** Colour normalisation (the block of [main] after argument parsing) *)

Definition startswith (c p : string) : bool := String.prefix p c.

(** [ch in "0123456789abcdefABCDEF"] for a one-character [ch].  A string is
    its sequence of bytes here; a character outside ASCII is no hexadecimal
    digit in either reading, so the length only matters for ASCII strings. *)
Definition is_hex_char (ch : ascii) : bool :=
  existsb (Ascii.eqb ch) (list_ascii_of_string "0123456789abcdefABCDEF").

Definition normalize_color (c : string) : string :=
  if negb (startswith c "#")
     && forallb is_hex_char (list_ascii_of_string c)
     && existsb (Nat.eqb (String.length c)) [3; 6; 8]%nat
  then ("#" ++ c)%string
  else c.

(** ** Specification vocabulary *)

(** [n] runs of a loop body, with no test in between. *)
Fixpoint iterate {S : Type} (body : S -> option S) (n : nat) (s : S)
    : option S :=
  match n with
  | O => Some s
  | Datatypes.S n' => s' <- body s ;; iterate body n' s'
  end.

(** How many of [x0], [x0 + step], [x0 + 2 step], ... are at most [bound]
    (for a positive [step]): [floor ((bound - x0) / step) + 1], or [0] when
    [x0] is already past the bound. *)
Definition steps (x0 bound step : R) : nat :=
  Z.to_nat (up ((bound - x0) / step)).

(** The first [n] of them. *)
Definition points (x0 step : R) (n : nat) : list R :=
  map (fun k : nat => x0 + INR k * step) (seq 0 n).


(** ** The patterns, in document units

    What each generator draws on an area of [W] by [H] document units with
    spacing [S], written with the closed form [k * S] of the [k]-th position
    instead of the running sum of the loops. *)

Definition vertical_lines (W H S SW : R) (color : string)
    : list svg.Element :=
  map (fun x => svg.Line x 0 x H color SW None)
      (points 0 S (steps 0 (W + 0.01) S)).

Definition horizontal_lines (y0 W H S SW : R) (color : string)
    : list svg.Element :=
  map (fun y => svg.Line 0 y W y color SW None)
      (points y0 S (steps y0 (H + 0.01) S)).

Definition grid_pattern (W H S SW : R) (color : string) : list svg.Element :=
  vertical_lines W H S SW color ++ horizontal_lines 0 W H S SW color.

Definition dots_pattern (W H S D : R) (color : string) : list svg.Element :=
  flat_map
    (fun x =>
       map (fun y => svg.Circle x y (D / 2) color)
           (points 0 S (steps 0 (H + 0.01) S)))
    (points 0 S (steps 0 (W + 0.01) S)).

Definition lined_pattern (W H S SW : R) (color : string) : list svg.Element :=
  horizontal_lines S W H S SW color.

(** The [i]-th vertex of the hexagon of side [s] centred at [(cx, cy)]. *)
Definition hex_vertex (s cx cy : R) (i : nat) : R * R :=
  (cx + s * cos (radians (60 * INR i)), cy + s * sin (radians (60 * INR i))).

Definition move_to (p : R * R) : svg.PathData := svg.M (fst p) (snd p).
Definition line_to (p : R * R) : svg.PathData := svg.L (fst p) (snd p).

(** The subpath of one hexagon. *)
Definition hexagon (s cx cy : R) : list svg.PathData :=
  [move_to (hex_vertex s cx cy 0)]
  ++ map (fun i => line_to (hex_vertex s cx cy i)) (seq 1 5)
  ++ [svg.Z].

(** The centres of the hexagons of column [col], top to bottom. *)
Definition hex_column (H S : R) (col : nat) : list (R * R) :=
  let hex_h := S * sqrt 3 in
  let cy0 := if truthy (col mod 2) then hex_h / 2 else 0 in
  map (fun cy => (INR col * (S * 2 * 0.75), cy))
      (points cy0 hex_h (steps cy0 (H + hex_h / 2) hex_h)).

(** The centres of all hexagons, column by column. *)
Definition hex_centers (W H S : R) : list (R * R) :=
  flat_map (hex_column H S) (seq 0 (steps 0 (W + S) (S * 2 * 0.75))).

Definition hex_pattern (W H S SW : R) (color : string) : list svg.Element :=
  [svg.Path (flat_map (fun c => hexagon S (fst c) (snd c)) (hex_centers W H S))
            color SW "none"].

Definition iso_pattern (W H S SW : R) (color : string) : list svg.Element :=
  let dx := S / sin (radians 60) in
  let run := H / tan (radians 60) in
  let xs := points (- H / tan (radians 60)) dx
              (steps (- H / tan (radians 60)) W dx) in
  horizontal_lines 0 W H S SW color
  ++ map (fun x => svg.Line x H (x + run) 0 color SW None) xs
  ++ map (fun x => svg.Line x 0 (x + run) H color SW None) xs.

Definition pattern (t : pattern_type) : R -> R -> R -> R -> string ->
                                        list svg.Element :=
  match t with
  | grid => grid_pattern
  | dots => dots_pattern
  | hex => hex_pattern
  | lined => lined_pattern
  | iso => iso_pattern
  end.

(** Fuel that lets every loop of a generator run to its end. *)
Definition enough_fuel (t : pattern_type) (W H S : R) : nat :=
  match t with
  | grid | dots => Nat.max (steps 0 (W + 0.01) S) (steps 0 (H + 0.01) S)
  | lined => steps S (H + 0.01) S
  | hex =>
      let hex_h := S * sqrt 3 in
      Nat.max (steps 0 (W + S) (S * 2 * 0.75))
        (Nat.max (steps 0 (H + hex_h / 2) hex_h)
                 (steps (hex_h / 2) (H + hex_h / 2) hex_h))
  | iso =>
      Nat.max (steps 0 (H + 0.01) S)
        (steps (- H / tan (radians 60)) W (S / sin (radians 60)))
  end.

(** Euclidean distance. *)
Definition dist (p q : R * R) : R :=
  sqrt ((fst p - fst q) ^ 2 + (snd p - snd q) ^ 2).

(** ** The page, in closed form *)

Definition page_size_mm (o : orientation_t) : R * R :=
  match o with
  | landscape => (PAGE_H_MM, PAGE_W_MM)
  | portrait => (PAGE_W_MM, PAGE_H_MM)
  end.

(** The size in millimetres of each panel of a layout. *)
Definition panel_size_mm (l : layout_t) (page_w_mm page_h_mm : R) : R * R :=
  match l with
  | full => (page_w_mm, page_h_mm)
  | half => (page_w_mm / 2, page_h_mm)
  | quarter => (page_w_mm / 2, page_h_mm / 2)
  end.

(** The page offsets, in document units, of the panels of a layout, in the
    order in which they are composed. *)
Definition panel_offsets (l : layout_t) (page_w_mm page_h_mm : R)
    : list (R * R) :=
  match l with
  | full => [(0, 0)]
  | half => [(0, 0); (mm (page_w_mm / 2), 0)]
  | quarter =>
      [(0, 0); (mm (page_w_mm / 2), 0); (0, mm (page_h_mm / 2));
       (mm (page_w_mm / 2), mm (page_h_mm / 2))]
  end.

(** The group that holds one panel: a clip rectangle of the inner area and the
    pattern under it, moved to the panel's offset plus the margin. *)
Definition panel_group (pattern_elements : list svg.Element)
    (inner_w_mm inner_h_mm margin_mm : R) (slot : nat * (R * R))
    : svg.Element :=
  let '(i, (ox, oy)) := slot in
  svg.G [svg.Translate (ox + mm margin_mm) (oy + mm margin_mm)] None
    [ svg.Defs
        [svg.ClipPath (clip_name i)
           [svg.Rect 0 0 (mm inner_w_mm) (mm inner_h_mm) None]];
      svg.G [] (Some ("url(#" ++ clip_name i ++ ")")%string)
        pattern_elements ].

Definition fold_lines_of (l : layout_t) (page_w page_h : R)
    : list svg.Element :=
  match l with
  | half =>
      [svg.Line (page_w / 2) 0 (page_w / 2) page_h "#999999" (mm 0.2)
         (Some [mm 2; mm 2])]
  | full | quarter => []
  end.

(** The inner area, in millimetres, of the panels of a configuration. *)
Definition inner_size_mm (args : Args) : R * R :=
  let '(page_w_mm, page_h_mm) := page_size_mm (orientation args) in
  let '(panel_w_mm, panel_h_mm) :=
    panel_size_mm (layout args) page_w_mm page_h_mm in
  (panel_w_mm - 2 * margin args, panel_h_mm - 2 * margin args).

(** The document of a configuration whose panels all hold
    [pattern_elements]. *)
Definition page_document (args : Args) (pattern_elements : list svg.Element)
    : svg.SVG :=
  let '(page_w_mm, page_h_mm) := page_size_mm (orientation args) in
  let '(inner_w, inner_h) := inner_size_mm args in
  let page_w := mm page_w_mm in
  let page_h := mm page_h_mm in
  svg.mkSVG page_w page_h (svg.mkViewBoxSpec 0 0 page_w page_h)
    (svg.Rect 0 0 page_w page_h (Some "white"%string)
     :: map (panel_group pattern_elements inner_w inner_h (margin args))
            (enumerate (panel_offsets (layout args) page_w_mm page_h_mm))
     ++ fold_lines_of (layout args) page_w page_h).

(** Fuel that lets the generator of a configuration run to its end. *)
Definition page_fuel (args : Args) : nat :=
  let '(inner_w, inner_h) := inner_size_mm args in
  enough_fuel (type args) (mm inner_w) (mm inner_h) (mm (size args)).

(** The command line's defaults. *)
Definition default_args : Args :=
  mkArgs grid 5 0.3 "#cccccc" portrait full 10 "output.svg".

(** The characters of a hexadecimal colour. *)
Definition hex_digits : list ascii :=
  list_ascii_of_string "0123456789abcdefABCDEF".

(** A string made of hexadecimal digits only. *)
Definition all_hex (c : string) : Prop :=
  forall ch, In ch (list_ascii_of_string c) -> In ch hex_digits.

(** Kinds of path commands. *)
Definition is_move_to (c : svg.PathData) : bool :=
  match c with svg.M _ _ => true | _ => false end.
Definition is_line_to (c : svg.PathData) : bool :=
  match c with svg.L _ _ => true | _ => false end.
Definition is_close (c : svg.PathData) : bool :=
  match c with svg.Z => true | _ => false end.

(** A generator that draws nothing but the rectangle of the width and height
    it is called with, to observe what a caller passes. *)
Definition probe : draw_fn_t :=
  fun _ w h _ _ _ => Some [svg.Rect 0 0 w h None].

(** How many panels a layout has. *)
Definition panel_count (l : layout_t) : nat :=
  match l with
  | full => 1
  | half => 2
  | quarter => 4
  end.

(** The bound on the primitives of one pattern: three times the area,
    widened on each axis by one spacing and the tolerance, over the square of
    the spacing. *)
Definition pattern_bound (W H S : R) : R :=
  3 * ((W + S + 0.01) * (H + S + 0.01)) / (S * S).

(** The distance from the point [p] to the line through [a] and [b]. *)
Definition point_line_distance (p a b : R * R) : R :=
  Rabs ((fst b - fst a) * (snd p - snd a) - (snd b - snd a) * (fst p - fst a))
  / dist a b.

(** The clip rectangle of a panel group in page coordinates, as its left, top,
    right and bottom edges: the rectangle of the group's clip path, moved by
    the group's translation. *)
Definition clip_box (e : svg.Element) : option (R * R * R * R) :=
  match e with
  | svg.G [svg.Translate tx ty] _
      (svg.Defs [svg.ClipPath _ [svg.Rect x y cw ch _]] :: _) =>
      Some (tx + x, ty + y, tx + x + cw, ty + y + ch)
  | _ => None
  end.

Definition clip_boxes (els : list svg.Element) : list (R * R * R * R) :=
  flat_map (fun e => match clip_box e with Some b => [b] | None => [] end) els.

(** The identifier that a panel group defines for its clip path, and the
    reference by which its pattern group uses a clip path. *)
Definition clip_id_of (e : svg.Element) : option string :=
  match e with
  | svg.G _ _ (svg.Defs [svg.ClipPath id _] :: _) => Some id
  | _ => None
  end.

Definition clip_ref_of (e : svg.Element) : option string :=
  match e with
  | svg.G _ _ [_; svg.G _ (Some ref) _] => Some ref
  | _ => None
  end.

Definition clip_ids (els : list svg.Element) : list string :=
  flat_map (fun e => match clip_id_of e with Some i => [i] | None => [] end)
           els.

(** ** Finding the cairo library ([_ensure_cairo_lib])

    What the function asks of the interpreter and of the operating system is
    a record of functions.  The process environment [os.environ] is a map from
    names to values. *)

(** What [subprocess.check_output] does: it returns the output of the command;
    or it raises [FileNotFoundError] or [CalledProcessError], the two
    exceptions that the source catches; or it raises another exception, which
    the source does not catch. *)
Inductive CheckOutput : Type :=
| Output (out : string)
| CommandFailed
| Escaped (exception : string).

Record System : Type := mkSystem
  { find_library : string -> option string;
    check_output : list string -> CheckOutput;
    strip : string -> string;
    path_join : string -> string -> string;
    expanduser : string -> string;
    isfile : string -> bool }.

Definition Environ : Type := string -> option string.

(** [environ.get(k, default)] and [environ[k] = v]. *)
Definition environ_get (environ : Environ) (k default : string) : string :=
  match environ k with
  | Some v => v
  | None => default
  end.

Definition environ_set (environ : Environ) (k v : string) : Environ :=
  fun k' => if String.eqb k' k then Some v else environ k'.

(** Truth value of a string used as a condition. *)
Definition str_truthy (s : string) : bool := negb (String.eqb s "").

(** [sub in s] for two strings, and [d in l] for a list of strings. *)
Definition contains (sub s : string) : bool :=
  match String.index 0 sub s with
  | Some _ => true
  | None => false
  end.

Definition list_contains (d : string) (l : list string) : bool :=
  existsb (String.eqb d) l.

Inductive Outcome : Type :=
| Returned (environ : Environ)
| RaisedOSError (message : string)
| Propagated (exception : string).

Definition lib_names : list string :=
  ["libcairo.2.dylib"; "libcairo.dylib"; "libcairo.so.2"; "libcairo.so"]%string.

(** The directories that are searched, in the order of the search (when the
    call of brew raises an exception that is not caught, the function has left
    before it searches). *)
Definition cairo_search_dirs (sys : System) (environ : Environ)
    : list string :=
  let search_dirs := [] in
  (* Homebrew (macOS) *)
  let search_dirs :=
    match check_output sys ["brew"; "--prefix"; "cairo"]%string with
    | Output out =>
        let prefix := strip sys out in
        search_dirs ++ [path_join sys prefix "lib"]
    | CommandFailed | Escaped _ => search_dirs
    end in
  (* Common Homebrew lib paths *)
  let search_dirs :=
    fold_left
      (fun search_dirs d =>
         if negb (list_contains d search_dirs) then search_dirs ++ [d]
         else search_dirs)
      ["/opt/homebrew/lib"; "/usr/local/lib"]%string search_dirs in
  (* Conda *)
  let conda_prefix := environ "CONDA_PREFIX"%string in
  let search_dirs :=
    match conda_prefix with
    | Some conda_prefix =>
        if str_truthy conda_prefix
        then search_dirs ++ [path_join sys conda_prefix "lib"]
        else search_dirs
    | None => search_dirs
    end in
  let home := expanduser sys "~" in
  fold_left
    (fun search_dirs name =>
       let d := path_join sys (path_join sys home name) "lib" in
       if negb (list_contains d search_dirs) then search_dirs ++ [d]
       else search_dirs)
    ["miniconda3"; "miniforge3"; "anaconda3"]%string search_dirs.

(** The probe: the first directory that holds one of the libraries is put in
    front of [DYLD_LIBRARY_PATH], unless it occurs in it, and the function
    returns; [None] when the loop ends without a return. *)
Fixpoint probe_dirs (sys : System) (environ : Environ) (dirs : list string)
    : option Environ :=
  match dirs with
  | [] => None
  | d :: dirs' =>
      if existsb (fun lib => isfile sys (path_join sys d lib)) lib_names
      then
        let existing := environ_get environ "DYLD_LIBRARY_PATH" "" in
        Some (if negb (contains d existing)
              then environ_set environ "DYLD_LIBRARY_PATH"
                     (if str_truthy existing
                      then (d ++ ":" ++ existing)%string
                      else d)
              else environ)
      else probe_dirs sys environ dirs'
  end.

Definition _ensure_cairo_lib (sys : System) (environ : Environ) : Outcome :=
  (* If ctypes can already find it, nothing to do *)
  if match find_library sys "cairo" with
     | Some name => str_truthy name
     | None => false
     end
  then Returned environ
  else
    match check_output sys ["brew"; "--prefix"; "cairo"]%string with
    | Escaped exception => Propagated exception
    | Output _ | CommandFailed =>
        let search_dirs := cairo_search_dirs sys environ in
        match probe_dirs sys environ search_dirs with
        | Some environ' => Returned environ'
        | None =>
            RaisedOSError
              ("libcairo was not found in any standard location. "
               ++ "Searched: " ++ String.concat ", " search_dirs)%string
        end
    end.

(** A machine without Homebrew and conda on which ctypes does not find cairo,
    with the library in /usr/local/lib or nowhere, and an empty
    environment. *)
Definition example_system (installed : bool) : System :=
  mkSystem (fun _ => None) (fun _ => CommandFailed) (fun s => s)
    (fun a b => (a ++ "/" ++ b)%string) (fun _ => "/home/user"%string)
    (fun p => installed && String.eqb p "/usr/local/lib/libcairo.so.2").

Definition empty_environ : Environ := fun _ => None.

(** An element drawn in the colour [color] with the stroke width [sw]: a line
    stroked so and not dashed, a circle of diameter [sw] filled so, or a path
    stroked so and not filled. *)
Definition has_style (color : string) (sw : R) (e : svg.Element) : Prop :=
  match e with
  | svg.Line _ _ _ _ stroke stroke_width dash =>
      stroke = color /\ stroke_width = sw /\ dash = None
  | svg.Circle _ _ r fill => fill = color /\ r = sw / 2
  | svg.Path _ stroke stroke_width fill =>
      stroke = color /\ stroke_width = sw /\ fill = "none"%string
  | _ => False
  end.

(** ** The program on binary64 numbers

    The unit conversion, the square grid and the dots with the arithmetic of
    the interpreter: every number is a binary64 float and every operation is
    the IEEE 754 one, rounded to nearest, with infinities and NaN. *)
Module b64.

#[local] Set Warnings "-inexact-float".

Inductive Element : Type :=
| Line (x1 y1 x2 y2 : float) (stroke : string) (stroke_width : float)
| Circle (cx cy r : float) (fill : string).

Definition MM_PER_PT : float := (25.4 / 72)%float.

Definition mm (val : float) : float := (val / MM_PER_PT)%float.

Definition draw_grid (fuel : nat) (w h size line_width : float)
    (color : string) : option (list Element) :=
  let elements := [] in
  let step := mm size in
  let sw := mm line_width in
  let pw := mm w in
  let ph := mm h in
  (* Vertical lines *)
  let x := 0%float in
  '(elements, x) <-
    while fuel (fun '(_, x) => (x <=? pw + 0.01)%float)
      (fun '(elements, x) =>
         Some (elements ++ [Line x 0 x ph color sw], (x + step)%float))
      (elements, x) ;;
  (* Horizontal lines *)
  let y := 0%float in
  '(elements, y) <-
    while fuel (fun '(_, y) => (y <=? ph + 0.01)%float)
      (fun '(elements, y) =>
         Some (elements ++ [Line 0 y pw y color sw], (y + step)%float))
      (elements, y) ;;
  Some elements.

Definition draw_dots (fuel : nat) (w h size line_width : float)
    (color : string) : option (list Element) :=
  let elements := [] in
  let step := mm size in
  let r := (mm line_width / 2)%float in
  let pw := mm w in
  let ph := mm h in
  let x := 0%float in
  '(elements, x) <-
    while fuel (fun '(_, x) => (x <=? pw + 0.01)%float)
      (fun '(elements, x) =>
         let y := 0%float in
         '(elements, y) <-
           while fuel (fun '(_, y) => (y <=? ph + 0.01)%float)
             (fun '(elements, y) =>
                Some (elements ++ [Circle x y r color], (y + step)%float))
             (elements, y) ;;
         Some (elements, (x + step)%float))
      (elements, x) ;;
  Some elements.

End b64.

(** ** The program with rounded arithmetic

    The whole program once more on real numbers, with the result of every
    operation on floats and every decimal constant passed through [rnd], the
    rounding to the nearest float.  Nothing is assumed of [rnd] here; the
    theorems assume its relative error, which is how binary64 behaves as long
    as no result overflows or falls into the subnormal range.  The functions
    of the [math] module are parameters. *)
Module fl.
Section Arithmetic.

Variable rnd : R -> R.
Variables math_sqrt math_sin math_cos math_tan math_radians : R -> R.

Definition add (a b : R) : R := rnd (a + b).
Definition sub (a b : R) : R := rnd (a - b).
Definition mul (a b : R) : R := rnd (a * b).
Definition div (a b : R) : R := rnd (a / b).
(** A decimal constant of the source. *)
Definition lit (x : R) : R := rnd x.

Definition PAGE_W_MM : R := lit 215.9.
Definition PAGE_H_MM : R := lit 279.4.

Definition MM_PER_PT : R := div (lit 25.4) 72.

Definition mm (val : R) : R := div val MM_PER_PT.

Definition draw_grid (fuel : nat) (w h size line_width : R) (color : string)
    : option (list svg.Element) :=
  let elements := [] in
  let step := mm size in
  let sw := mm line_width in
  let pw := mm w in
  let ph := mm h in
  (* Vertical lines *)
  let x := 0 in
  '(elements, x) <-
    while fuel (fun '(_, x) => x <=? add pw (lit 0.01))
      (fun '(elements, x) =>
         Some (elements ++ [svg.Line x 0 x ph color sw None], add x step))
      (elements, x) ;;
  (* Horizontal lines *)
  let y := 0 in
  '(elements, y) <-
    while fuel (fun '(_, y) => y <=? add ph (lit 0.01))
      (fun '(elements, y) =>
         Some (elements ++ [svg.Line 0 y pw y color sw None], add y step))
      (elements, y) ;;
  Some elements.

Definition draw_dots (fuel : nat) (w h size line_width : R) (color : string)
    : option (list svg.Element) :=
  let elements := [] in
  let step := mm size in
  let r := div (mm line_width) 2 in
  let pw := mm w in
  let ph := mm h in
  let x := 0 in
  '(elements, x) <-
    while fuel (fun '(_, x) => x <=? add pw (lit 0.01))
      (fun '(elements, x) =>
         let y := 0 in
         '(elements, y) <-
           while fuel (fun '(_, y) => y <=? add ph (lit 0.01))
             (fun '(elements, y) =>
                Some (elements ++ [svg.Circle x y r color], add y step))
             (elements, y) ;;
         Some (elements, add x step))
      (elements, x) ;;
  Some elements.

Definition draw_lined (fuel : nat) (w h size line_width : R) (color : string)
    : option (list svg.Element) :=
  let elements := [] in
  let step := mm size in
  let sw := mm line_width in
  let pw := mm w in
  let ph := mm h in
  let y := step in
  '(elements, y) <-
    while fuel (fun '(_, y) => y <=? add ph (lit 0.01))
      (fun '(elements, y) =>
         Some (elements ++ [svg.Line 0 y pw y color sw None], add y step))
      (elements, y) ;;
  Some elements.

Definition hex_subpath (s cx cy : R) (path_data : list svg.PathData)
    : option (list svg.PathData) :=
  let pts :=
    map (fun i : nat =>
           let angle := math_radians (60 * INR i) in
           let px := add cx (mul s (math_cos angle)) in
           let py := add cy (mul s (math_sin angle)) in
           (px, py))
        (seq 0 6) in
  match pts with
  | [] => None
  | p0 :: rest =>
      let path_data := path_data ++ [svg.M (fst p0) (snd p0)] in
      let path_data :=
        fold_left (fun pd '(px, py) => pd ++ [svg.L px py]) rest path_data in
      Some (path_data ++ [svg.Z])
  end.

Definition draw_hex (fuel : nat) (w h size line_width : R) (color : string)
    : option (list svg.Element) :=
  let s := mm size in
  let sw := mm line_width in
  let pw := mm w in
  let ph := mm h in
  (* Flat-top hex geometry *)
  let hex_w := mul s 2 in
  let hex_h := mul s (math_sqrt 3) in
  let col_step := mul hex_w (lit 0.75) in
  let row_step := hex_h in
  let path_data := [] in
  let col := 0%nat in
  let cx := 0 in
  '(path_data, col, cx) <-
    while fuel (fun '(_, _, cx) => sub cx s <=? pw)
      (fun '(path_data, col, cx) =>
         let row_offset := if truthy (col mod 2) then div hex_h 2 else 0 in
         let cy := row_offset in
         '(path_data, cy) <-
           while fuel (fun '(_, cy) => sub cy (div hex_h 2) <=? ph)
             (fun '(path_data, cy) =>
                path_data <- hex_subpath s cx cy path_data ;;
                Some (path_data, add cy row_step))
             (path_data, cy) ;;
         Some (path_data, (col + 1)%nat, add cx col_step))
      (path_data, col, cx) ;;
  Some [svg.Path path_data color sw "none"].

Definition draw_iso (fuel : nat) (w h size line_width : R) (color : string)
    : option (list svg.Element) :=
  let sw := mm line_width in
  let pw := mm w in
  let ph := mm h in
  let spacing := mm size in
  let elements := [] in
  (* Horizontal lines *)
  let y := 0 in
  '(elements, y) <-
    while fuel (fun '(_, y) => y <=? add ph (lit 0.01))
      (fun '(elements, y) =>
         Some (elements ++ [svg.Line 0 y pw y color sw None], add y spacing))
      (elements, y) ;;
  (* Lines at +60 degrees *)
  let dx := div spacing (math_sin (math_radians 60)) in
  let dy_per_dx := math_tan (math_radians 60) in
  let start := div (- ph) dy_per_dx in
  let x := start in
  '(elements, x) <-
    while fuel (fun '(_, x) => x <=? pw)
      (fun '(elements, x) =>
         let '(x1, y1) := (x, ph) in
         let '(x2, y2) := (add x (div ph dy_per_dx), 0) in
         Some (elements ++ [svg.Line x1 y1 x2 y2 color sw None], add x dx))
      (elements, x) ;;
  (* Lines at -60 degrees *)
  let x := start in
  '(elements, x) <-
    while fuel (fun '(_, x) => x <=? pw)
      (fun '(elements, x) =>
         let '(x1, y1) := (x, 0) in
         let '(x2, y2) := (add x (div ph dy_per_dx), ph) in
         Some (elements ++ [svg.Line x1 y1 x2 y2 color sw None], add x dx))
      (elements, x) ;;
  Some elements.

Definition DRAW_FNS (t : pattern_type) : draw_fn_t :=
  match t with
  | grid => draw_grid
  | dots => draw_dots
  | hex => draw_hex
  | lined => draw_lined
  | iso => draw_iso
  end.

Definition make_panel (draw_fn : draw_fn_t) (fuel : nat)
    (panel_w_mm panel_h_mm offset_x offset_y margin_mm size line_width : R)
    (color clip_id : string) : option (list svg.Element) :=
  let inner_w := sub panel_w_mm (mul 2 margin_mm) in
  let inner_h := sub panel_h_mm (mul 2 margin_mm) in
  let margin_pt := mm margin_mm in
  pattern_elements <- draw_fn fuel inner_w inner_h size line_width color ;;
  let clip :=
    svg.ClipPath clip_id [svg.Rect 0 0 (mm inner_w) (mm inner_h) None] in
  let group :=
    svg.G [svg.Translate (add offset_x margin_pt) (add offset_y margin_pt)]
      None
      [ svg.Defs [clip];
        svg.G [] (Some ("url(#" ++ clip_id ++ ")")%string) pattern_elements ] in
  Some [group].

Definition make_page (fuel : nat) (args : Args) : option svg.SVG :=
  let '(page_w_mm, page_h_mm) :=
    match orientation args with
    | landscape => (PAGE_H_MM, PAGE_W_MM)
    | portrait => (PAGE_W_MM, PAGE_H_MM)
    end in
  let page_w := mm page_w_mm in
  let page_h := mm page_h_mm in
  let draw_fn := DRAW_FNS (type args) in
  let elements := [] in
  (* White background *)
  let elements :=
    elements ++ [svg.Rect 0 0 page_w page_h (Some "white"%string)] in
  let fold_lines := [] in
  let fold_color := "#999999"%string in
  let fold_width := mm (lit 0.2) in
  let fold_dash := [mm 2; mm 2] in
  '(elements, fold_lines) <-
    match layout args with
    | full =>
        panel <- make_panel draw_fn fuel page_w_mm page_h_mm 0 0
                   (margin args) (size args) (line_width args) (color args)
                   "clip-0" ;;
        Some (elements ++ panel, fold_lines)
    | half =>
        let half_w := div page_w_mm 2 in
        elements <-
          for_each (seq 0 2)
            (fun i elements =>
               let ox := mul (mm half_w) (INR i) in
               panel <- make_panel draw_fn fuel half_w page_h_mm ox 0
                          (margin args) (size args) (line_width args)
                          (color args) (clip_name i) ;;
               Some (elements ++ panel))
            elements ;;
        (* Vertical fold line at center *)
        let cx := div page_w 2 in
        Some (elements,
              fold_lines ++
              [svg.Line cx 0 cx page_h fold_color fold_width (Some fold_dash)])
    | quarter =>
        let half_w := div page_w_mm 2 in
        let half_h := div page_h_mm 2 in
        elements <-
          for_each (enumerate [(0, 0); (1, 0); (0, 1); (1, 1)]%nat)
            (fun '(i, (col, row)) elements =>
               let ox := mul (mm half_w) (INR col) in
               let oy := mul (mm half_h) (INR row) in
               panel <- make_panel draw_fn fuel half_w half_h ox oy
                          (margin args) (size args) (line_width args)
                          (color args) (clip_name i) ;;
               Some (elements ++ panel))
            elements ;;
        Some (elements, fold_lines)
    end ;;
  let elements := elements ++ fold_lines in
  Some (svg.mkSVG page_w page_h (svg.mkViewBoxSpec 0 0 page_w page_h) elements).

(** The inner area that [make_page] hands to the generator. *)
Definition inner_size_mm (args : Args) : R * R :=
  let '(page_w_mm, page_h_mm) :=
    match orientation args with
    | landscape => (PAGE_H_MM, PAGE_W_MM)
    | portrait => (PAGE_W_MM, PAGE_H_MM)
    end in
  let '(panel_w_mm, panel_h_mm) :=
    match layout args with
    | full => (page_w_mm, page_h_mm)
    | half => (div page_w_mm 2, page_h_mm)
    | quarter => (div page_w_mm 2, div page_h_mm 2)
    end in
  (sub panel_w_mm (mul 2 (margin args)), sub panel_h_mm (mul 2 (margin args))).



End Arithmetic.
End fl.


#[local] Set Warnings "-inexact-float".

(** * Loops *)

Section While.
Context {S : Type}.
Variable cond : S -> bool.
Variable body : S -> option S.

Lemma while_fuel_mono (fuel fuel' : nat) (s r : S) :
  while fuel cond body s = Some r -> (fuel <= fuel')%nat ->
  while fuel' cond body s = Some r.
Proof.
  revert fuel' s. induction fuel as [|fuel IH]; intros fuel' s H Hle.
  - discriminate.
  - destruct fuel' as [|fuel']; [lia|]. simpl in *.
    destruct (cond s); [|exact H].
    destruct (body s) as [s'|]; simpl in *; [|discriminate].
    apply IH; [exact H|lia].
Qed.

(** A loop whose test holds along the first [n] states and fails at the
    next one is [n] runs of its body. *)
Lemma while_iterate (n : nat) :
  forall (s : S) (fuel : nat),
    (n < fuel)%nat ->
    (forall k s', (k < n)%nat -> iterate body k s = Some s' ->
                  cond s' = true) ->
    (forall s', iterate body n s = Some s' -> cond s' = false) ->
    while fuel cond body s = iterate body n s.
Proof.
  induction n as [|n IH]; intros s fuel Hfuel Htrue Hfalse.
  - destruct fuel as [|fuel]; [lia|]. simpl.
    rewrite (Hfalse s eq_refl). reflexivity.
  - destruct fuel as [|fuel]; [lia|]. simpl.
    rewrite (Htrue 0%nat s) by (lia || reflexivity).
    destruct (body s) as [s1|] eqn:Hb; simpl; [|reflexivity].
    apply IH.
    + lia.
    + intros k s' Hk Hit. apply (Htrue (Datatypes.S k)); [lia|].
      simpl. rewrite Hb. exact Hit.
    + intros s' Hit. apply Hfalse. simpl. rewrite Hb. exact Hit.
Qed.

Lemma iterate_ext (body' : S -> option S) (n : nat) (s : S) :
  (forall s, body s = body' s) -> iterate body n s = iterate body' n s.
Proof.
  intros Hext. revert s. induction n as [|n IH]; intros s; simpl.
  - reflexivity.
  - rewrite Hext. destruct (body' s); simpl; auto.
Qed.
End While.

(** A loop whose test holds on every state that it reaches has no result. *)
Lemma while_diverges {S : Type} (cond : S -> bool) (body : S -> option S)
    (Inv : S -> Prop) :
  (forall s, Inv s -> cond s = true) ->
  (forall s s', Inv s -> body s = Some s' -> Inv s') ->
  forall (fuel : nat) (s : S), Inv s -> while fuel cond body s = None.
Proof.
  intros Hcond Hbody. induction fuel as [|fuel IH]; intros s Hs.
  - reflexivity.
  - simpl. rewrite (Hcond s Hs).
    destruct (body s) as [s'|] eqn:Hb; simpl; [|reflexivity].
    apply IH. exact (Hbody s s' Hs Hb).
Qed.

Lemma Rleb_true (a b : R) : (a <=? b) = true <-> a <= b.
Proof. unfold Rleb. destruct (Rle_dec a b); split; intros; congruence. Qed.

Lemma Rleb_false (a b : R) : (a <=? b) = false <-> ~ a <= b.
Proof. unfold Rleb. destruct (Rle_dec a b); split; intros; congruence. Qed.

Lemma INR_S_step (k : nat) (x step : R) :
x + step + INR k * step = x + INR (Datatypes.S k) * step.
Proof. rewrite S_INR. ring. Qed.

(** The defining property of [steps]. *)
Lemma steps_spec (x0 bound step : R) (k : nat) :
0 < step ->
(k < steps x0 bound step)%nat <-> x0 + INR k * step <= bound.
Proof.
intros Hstep. unfold steps.
set (r := (bound - x0) / step).
assert (Hr : x0 + INR k * step <= bound <-> INR k <= r).
{ unfold r. split; intros H.
  - apply Rmult_le_reg_r with step; [exact Hstep|].
    unfold Rdiv. rewrite Rmult_assoc, Rinv_l by lra. lra.
  - apply Rmult_le_compat_r with (r := step) in H; [|lra].
    unfold Rdiv in H. rewrite Rmult_assoc, Rinv_l in H by lra. lra. }
rewrite Hr, up_Zfloor, INR_IZR_INZ.
destruct (Zfloor_bound r) as [Hlo Hhi].
split; intros H.
- assert (Hz : (Z.of_nat k <= Zfloor r)%Z) by lia.
  apply IZR_le in Hz. lra.
- apply Zfloor_lub in H. lia.
Qed.

Lemma steps_zero (x0 bound step : R) :
0 < step -> bound < x0 -> steps x0 bound step = 0%nat.
Proof.
intros Hstep Hlt.
destruct (steps x0 bound step) eqn:E; [reflexivity|].
assert (H : (0 < steps x0 bound step)%nat) by lia.
apply steps_spec in H; [|exact Hstep]. simpl in H. lra.
Qed.

(** From the origin the count is [floor (bound / step) + 1]. *)
Lemma steps_floor (bound step : R) :
0 < step -> 0 <= bound ->
steps 0 bound step = (Z.to_nat (Zfloor (bound / step)) + 1)%nat.
Proof.
intros Hstep Hb. unfold steps. rewrite Rminus_0_r, up_Zfloor.
assert (H : (0 <= Zfloor (bound / step))%Z).
{ apply Zfloor_lub. simpl.
  apply Rmult_le_pos; [exact Hb|]. left. apply Rinv_0_lt_compat, Hstep. }
lia.
Qed.

Section ArithmeticLoop.
Context {S : Type}.
Variable pos : S -> R.
Variables bound step : R.
Variable cond : S -> bool.
Variable body : S -> option S.
Hypothesis step_pos : 0 < step.
Hypothesis cond_pos : forall s, cond s = (pos s <=? bound).
Hypothesis body_pos : forall s s', body s = Some s' -> pos s' = pos s + step.

Lemma iterate_pos (n : nat) :
  forall s s', iterate body n s = Some s' -> pos s' = pos s + INR n * step.
Proof.
  induction n as [|n IH]; intros s s' H.
  - simpl in H. injection H as <-. simpl. ring.
  - simpl in H. destruct (body s) as [s1|] eqn:Hb; simpl in H; [|discriminate].
    rewrite (IH _ _ H), (body_pos _ _ Hb). apply INR_S_step.
Qed.

(** A loop that advances by a positive step up to a bound runs its body
    [steps] times, as soon as the fuel exceeds that count. *)
Lemma while_steps (s : S) (fuel : nat) :
  (steps (pos s) bound step < fuel)%nat ->
  while fuel cond body s = iterate body (steps (pos s) bound step) s.
Proof.
  intros Hfuel. apply while_iterate; [exact Hfuel| |].
  - intros k s' Hk Hit. rewrite cond_pos, (iterate_pos _ _ _ Hit).
    apply Rleb_true, steps_spec; assumption.
  - intros s' Hit. rewrite cond_pos, (iterate_pos _ _ _ Hit).
    apply Rleb_false. intros Hle.
    apply steps_spec in Hle; [lia|exact step_pos].
Qed.
End ArithmeticLoop.

Lemma points_S (x step : R) (n : nat) :
  points x step (Datatypes.S n) = x :: points (x + step) step n.
Proof.
  unfold points. simpl. f_equal.
  - ring.
  - rewrite <- seq_shift, map_map. apply map_ext. intros k.
    symmetry. apply INR_S_step.
Qed.

Lemma points_length (x step : R) (n : nat) : List.length (points x step n) = n.
Proof. unfold points. rewrite length_map, length_seq. reflexivity. Qed.

Lemma points_nth (x step : R) (n k : nat) :
  (k < n)%nat -> nth_error (points x step n) k = Some (x + INR k * step).
Proof.
  intros Hk. unfold points.
  rewrite nth_error_map, nth_error_seq.
  destruct (Nat.ltb_spec k n); [reflexivity|lia].
Qed.

Lemma flat_map_single {A B : Type} (f : A -> B) (l : list A) :
  flat_map (fun a => [f a]) l = map f l.
Proof. induction l as [|a l IH]; simpl; [reflexivity|now rewrite IH]. Qed.

(** The loop [while x <= bound: elements.extend(g(x)); x += step]. *)
Section EmitLoop.
Context {A : Type}.
Variable g : R -> list A.
Variables bound step : R.
Hypothesis step_pos : 0 < step.
Variable cond : list A * R -> bool.
Variable body : list A * R -> option (list A * R).
Hypothesis cond_le : forall els x, cond (els, x) = (x <=? bound).
Hypothesis body_emit :
  forall els x, body (els, x) = Some (els ++ g x, x + step).

Lemma iterate_emit (n : nat) :
  forall els x,
    iterate body n (els, x)
    = Some (els ++ flat_map g (points x step n), x + INR n * step).
Proof.
  induction n as [|n IH]; intros els x.
  - simpl. rewrite app_nil_r. do 2 f_equal. ring.
  - simpl iterate. rewrite body_emit. simpl bind. rewrite IH, points_S.
    simpl flat_map. rewrite <- app_assoc, INR_S_step. reflexivity.
Qed.

Lemma while_emit (fuel : nat) (els : list A) (x : R) :
  (steps x bound step < fuel)%nat ->
  while fuel cond body (els, x)
  = Some (els ++ flat_map g (points x step (steps x bound step)),
          x + INR (steps x bound step) * step).
Proof.
  intros Hfuel.
  rewrite (while_steps snd bound step) with (s := (els, x)).
  - apply iterate_emit.
  - exact step_pos.
  - intros [? ?]. apply cond_le.
  - intros [e y] [e' y'] H. rewrite body_emit in H.
    injection H as _ <-. reflexivity.
  - exact Hfuel.
Qed.
End EmitLoop.

(** * The generators in closed form *)

Lemma mm_pos (v : R) : 0 < v -> 0 < mm v.
Proof. intros H. unfold mm, MM_PER_PT. lra. Qed.

Lemma mm_nonneg (v : R) : 0 <= v -> 0 <= mm v.
Proof. intros H. unfold mm, MM_PER_PT. lra. Qed.

Lemma draw_grid_pattern (fuel : nat) (w h size line_width : R)
    (color : string) :
  0 < size ->
  (enough_fuel grid (mm w) (mm h) (mm size) < fuel)%nat ->
  draw_grid fuel w h size line_width color
  = Some (grid_pattern (mm w) (mm h) (mm size) (mm line_width) color).
Proof.
  intros Hsize Hfuel. apply mm_pos in Hsize. simpl in Hfuel.
  unfold draw_grid, grid_pattern, vertical_lines, horizontal_lines.
  set (vert := fun x => [svg.Line x 0 x (mm h) color (mm line_width) None]).
  set (horiz := fun y => [svg.Line 0 y (mm w) y color (mm line_width) None]).
  rewrite (while_emit vert (mm w + 0.01) (mm size) Hsize);
    [|intros; reflexivity|intros; reflexivity|lia].
  simpl bind.
  rewrite (while_emit horiz (mm h + 0.01) (mm size) Hsize);
    [|intros; reflexivity|intros; reflexivity|lia].
  simpl bind. unfold vert, horiz. now rewrite !flat_map_single.
Qed.

(** With a spacing that is not positive the first loop of the grid generator
    never leaves, on any area that is not negative. *)
Lemma draw_grid_diverges (fuel : nat) (w h size line_width : R)
    (color : string) :
  size <= 0 -> 0 <= w ->
  draw_grid fuel w h size line_width color = None.
Proof.
  intros Hsize Hw. unfold draw_grid.
  rewrite (while_diverges _ _ (fun s : list svg.Element * R => snd s <= 0)).
  - reflexivity.
  - intros [els x] Hx. simpl in Hx. apply Rleb_true.
    assert (H := mm_nonneg w Hw). lra.
  - intros [els x] [els' x'] Hx Hb. injection Hb as _ <-. simpl in *.
    assert (H : mm size <= 0) by (unfold mm, MM_PER_PT; lra). lra.
  - simpl. lra.
Qed.

Lemma draw_dots_pattern (fuel : nat) (w h size line_width : R)
    (color : string) :
  0 < size ->
  (enough_fuel dots (mm w) (mm h) (mm size) < fuel)%nat ->
  draw_dots fuel w h size line_width color
  = Some (dots_pattern (mm w) (mm h) (mm size) (mm line_width) color).
Proof.
  intros Hsize Hfuel. apply mm_pos in Hsize. simpl in Hfuel.
  unfold draw_dots, dots_pattern.
  set (ys := points 0 (mm size) (steps 0 (mm h + 0.01) (mm size))).
  set (column := fun x =>
         flat_map (fun y => [svg.Circle x y (mm line_width / 2) color]) ys).
  rewrite (while_emit column (mm w + 0.01) (mm size) Hsize);
    [|intros; reflexivity| |lia].
  - simpl. f_equal.
    all: try (apply flat_map_ext; intros x; unfold column;
              apply flat_map_single).
  - intros els x.
    rewrite (while_emit
               (fun y => [svg.Circle x y (mm line_width / 2) color])
               (mm h + 0.01) (mm size) Hsize);
      [reflexivity|intros; reflexivity|intros; reflexivity|lia].
Qed.

Lemma draw_lined_pattern (fuel : nat) (w h size line_width : R)
    (color : string) :
  0 < size ->
  (enough_fuel lined (mm w) (mm h) (mm size) < fuel)%nat ->
  draw_lined fuel w h size line_width color
  = Some (lined_pattern (mm w) (mm h) (mm size) (mm line_width) color).
Proof.
  intros Hsize Hfuel. apply mm_pos in Hsize. simpl in Hfuel.
  unfold draw_lined, lined_pattern, horizontal_lines.
  rewrite (while_emit
             (fun y => [svg.Line 0 y (mm w) y color (mm line_width) None])
             (mm h + 0.01) (mm size) Hsize);
    [|intros; reflexivity|intros; reflexivity|lia].
  simpl. now rewrite flat_map_single.
Qed.

Lemma radians_60 : radians 60 = PI / 3.
Proof. unfold radians. field. Qed.

Lemma sin_60_pos : 0 < sin (radians 60).
Proof.
  rewrite radians_60, sin_PI3.
  assert (H := sqrt_lt_R0 3). lra.
Qed.

Lemma draw_iso_pattern (fuel : nat) (w h size line_width : R)
    (color : string) :
  0 < size ->
  (enough_fuel iso (mm w) (mm h) (mm size) < fuel)%nat ->
  draw_iso fuel w h size line_width color
  = Some (iso_pattern (mm w) (mm h) (mm size) (mm line_width) color).
Proof.
  intros Hsize Hfuel. apply mm_pos in Hsize. simpl in Hfuel.
  assert (Hdx : 0 < mm size / sin (radians 60)).
  { apply Rdiv_lt_0_compat; [exact Hsize|exact sin_60_pos]. }
  unfold draw_iso, iso_pattern, horizontal_lines.
  rewrite (while_emit
             (fun y => [svg.Line 0 y (mm w) y color (mm line_width) None])
             (mm h + 0.01) (mm size) Hsize);
    [|intros; reflexivity|intros; reflexivity|lia].
  simpl bind.
  rewrite (while_emit
             (fun x => [svg.Line x (mm h) (x + mm h / tan (radians 60)) 0
                          color (mm line_width) None])
             (mm w) (mm size / sin (radians 60)) Hdx);
    [|intros; reflexivity|intros; reflexivity|lia].
  simpl bind.
  rewrite (while_emit
             (fun x => [svg.Line x 0 (x + mm h / tan (radians 60)) (mm h)
                          color (mm line_width) None])
             (mm w) (mm size / sin (radians 60)) Hdx);
    [|intros; reflexivity|intros; reflexivity|lia].
  simpl bind. rewrite !flat_map_single, <- !app_assoc. reflexivity.
Qed.

Lemma flat_map_map {A B C : Type} (f : B -> list C) (h : A -> B)
    (l : list A) :
  flat_map f (map h l) = flat_map (fun a => f (h a)) l.
Proof. induction l as [|a l IH]; simpl; [reflexivity|now rewrite IH]. Qed.

(** The loop [while x <= bound: elements.extend(g(col, x)); x += step;
    col += 1]. *)
Section CountedEmitLoop.
Context {A : Type}.
Variable g : nat -> R -> list A.
Variables bound step : R.
Hypothesis step_pos : 0 < step.
Variable cond : list A * nat * R -> bool.
Variable body : list A * nat * R -> option (list A * nat * R).
Hypothesis cond_le : forall els col x, cond (els, col, x) = (x <=? bound).
Hypothesis body_emit :
  forall els col x,
    body (els, col, x) = Some (els ++ g col x, (col + 1)%nat, x + step).

Lemma iterate_counted (n : nat) :
  forall els col x,
    iterate body n (els, col, x)
    = Some (els ++ flat_map (fun k => g (col + k) (x + INR k * step)) (seq 0 n),
            (col + n)%nat, x + INR n * step).
Proof.
  induction n as [|n IH]; intros els col x.
  - simpl. rewrite app_nil_r, Nat.add_0_r. do 2 f_equal. ring.
  - simpl iterate. rewrite body_emit. simpl bind. rewrite IH.
    rewrite <- app_assoc, INR_S_step.
    replace (col + 1 + n)%nat with (col + Datatypes.S n)%nat by lia.
    do 3 f_equal.
    rewrite <- cons_seq, <- seq_shift. simpl flat_map. rewrite flat_map_map.
    rewrite Nat.add_0_r. simpl INR.
    replace (x + 0 * step) with x by ring.
    do 2 apply f_equal.
    apply flat_map_ext. intros k. rewrite INR_S_step.
    now replace (col + 1 + k)%nat with (col + Datatypes.S k)%nat by lia.
Qed.

Lemma while_counted (fuel : nat) (els : list A) (col : nat) (x : R) :
  (steps x bound step < fuel)%nat ->
  while fuel cond body (els, col, x)
  = Some (els ++ flat_map (fun k => g (col + k) (x + INR k * step))
                          (seq 0 (steps x bound step)),
          (col + steps x bound step)%nat,
          x + INR (steps x bound step) * step).
Proof.
  intros Hfuel.
  rewrite (while_steps snd bound step) with (s := (els, col, x)).
  - apply iterate_counted.
  - exact step_pos.
  - intros [[? ?] ?]. apply cond_le.
  - intros [[e c] y] [[e' c'] y'] H. rewrite body_emit in H.
    injection H as _ _ <-. reflexivity.
  - exact Hfuel.
Qed.
End CountedEmitLoop.

Lemma Rleb_shift (a b c : R) : (a - c <=? b) = (a <=? b + c).
Proof.
  destruct (a <=? b + c) eqn:E.
  - apply Rleb_true in E. apply Rleb_true. lra.
  - apply Rleb_false in E. apply Rleb_false. lra.
Qed.

Lemma flat_map_flat_map {A B C : Type} (f : B -> list C) (g : A -> list B)
    (l : list A) :
  flat_map f (flat_map g l) = flat_map (fun a => flat_map f (g a)) l.
Proof.
  induction l as [|a l IH]; simpl; [reflexivity|].
  now rewrite flat_map_app, IH.
Qed.

Lemma hex_subpath_hexagon (s cx cy : R) (path_data : list svg.PathData) :
  hex_subpath s cx cy path_data = Some (path_data ++ hexagon s cx cy).
Proof.
  unfold hex_subpath, hexagon.
  cbn [map seq fold_left hex_vertex move_to line_to fst snd].
  rewrite <- !app_assoc. reflexivity.
Qed.

Lemma draw_hex_pattern (fuel : nat) (w h size line_width : R)
    (color : string) :
  0 < size ->
  (enough_fuel hex (mm w) (mm h) (mm size) < fuel)%nat ->
  draw_hex fuel w h size line_width color
  = Some (hex_pattern (mm w) (mm h) (mm size) (mm line_width) color).
Proof.
  intros Hsize Hfuel. apply mm_pos in Hsize. simpl in Hfuel.
  assert (Hsqrt := sqrt_lt_R0 3 ltac:(lra)).
  assert (Hh : 0 < mm size * sqrt 3) by (apply Rmult_lt_0_compat; lra).
  assert (Hc : 0 < mm size * 2 * 0.75) by lra.
  unfold draw_hex, hex_pattern, hex_centers.
  set (s := mm size) in *. set (hex_h := s * sqrt 3) in *.
  set (column := fun (col : nat) (cx : R) =>
         let cy0 := if truthy (col mod 2) then hex_h / 2 else 0 in
         flat_map (fun cy => hexagon s cx cy)
           (points cy0 hex_h (steps cy0 (mm h + hex_h / 2) hex_h))).
  rewrite (while_counted column (mm w + s) (s * 2 * 0.75) Hc);
    [|intros; apply Rleb_shift| |lia].
  - simpl bind. do 3 f_equal. rewrite flat_map_flat_map.
    apply flat_map_ext. intros k. unfold column, hex_column. fold hex_h.
    cbv zeta. rewrite flat_map_map. simpl fst. simpl snd.
    now replace (0 + INR k * (s * 2 * 0.75)) with (INR k * (s * 2 * 0.75))
      by ring.
  - intros els col x.
    rewrite (while_emit (fun cy => hexagon s x cy) (mm h + hex_h / 2) hex_h Hh).
    + reflexivity.
    + intros. apply Rleb_shift.
    + intros. rewrite hex_subpath_hexagon. reflexivity.
    + destruct (truthy (col mod 2)); lia.
Qed.

(** Every generator, for a positive spacing and enough fuel, draws its pattern
    on the converted arguments. *)
Lemma DRAW_FNS_pattern (t : pattern_type) (fuel : nat)
    (w h size line_width : R) (color : string) :
  0 < size ->
  (enough_fuel t (mm w) (mm h) (mm size) < fuel)%nat ->
  DRAW_FNS t fuel w h size line_width color
  = Some (pattern t (mm w) (mm h) (mm size) (mm line_width) color).
Proof.
  destruct t; simpl DRAW_FNS; simpl pattern.
  - apply draw_grid_pattern.
  - apply draw_dots_pattern.
  - apply draw_hex_pattern.
  - apply draw_lined_pattern.
  - apply draw_iso_pattern.
Qed.

(** * Panels and pages *)

(** [make_panel] hands the inner area to the generator as it is, in
    millimetres, and wraps what the generator returns. *)
Lemma make_panel_eq (draw_fn : draw_fn_t) (fuel : nat)
    (panel_w_mm panel_h_mm offset_x offset_y margin_mm size line_width : R)
    (color : string) (i : nat) :
  make_panel draw_fn fuel panel_w_mm panel_h_mm offset_x offset_y margin_mm
    size line_width color (clip_name i)
  = option_map
      (fun pattern_elements =>
         [panel_group pattern_elements (panel_w_mm - 2 * margin_mm)
            (panel_h_mm - 2 * margin_mm) margin_mm (i, (offset_x, offset_y))])
      (draw_fn fuel (panel_w_mm - 2 * margin_mm) (panel_h_mm - 2 * margin_mm)
         size line_width color).
Proof.
  unfold make_panel, panel_group.
  destruct (draw_fn _ _ _ _ _ _); reflexivity.
Qed.

Lemma make_page_eq (fuel : nat) (args : Args) :
  make_page fuel args
  = option_map (page_document args)
      (DRAW_FNS (type args) fuel (fst (inner_size_mm args))
         (snd (inner_size_mm args)) (size args) (line_width args)
         (color args)).
Proof.
  unfold make_page, page_document, inner_size_mm, page_size_mm.
  change "clip-0"%string with (clip_name 0).
  destruct (orientation args), (layout args);
    cbn [panel_size_mm panel_offsets fold_lines_of fst snd for_each enumerate
         seq List.length combine map app];
    rewrite ?make_panel_eq;
    match goal with
    | |- context [DRAW_FNS ?t ?f ?w ?h ?s ?l ?c] =>
        destruct (DRAW_FNS t f w h s l c)
    end;
    cbn [bind option_map app]; try reflexivity;
    unfold panel_group; cbn [INR]; do 2 f_equal;
    repeat (f_equal; try ring).
Qed.

(** For a positive spacing and enough fuel the page is assembled, and every
    panel holds the pattern of the inner area. *)
Lemma make_page_total (fuel : nat) (args : Args) :
  0 < size args ->
  (page_fuel args < fuel)%nat ->
  make_page fuel args
  = Some (page_document args
            (pattern (type args) (mm (fst (inner_size_mm args)))
               (mm (snd (inner_size_mm args))) (mm (size args))
               (mm (line_width args)) (color args))).
Proof.
  intros Hsize Hfuel. rewrite make_page_eq.
  unfold page_fuel in Hfuel.
  destruct (inner_size_mm args) as [iw ih]. simpl fst. simpl snd.
  rewrite DRAW_FNS_pattern by assumption. reflexivity.
Qed.

Lemma steps_unique (x0 bound step : R) (n : nat) :
  0 < step ->
  n = 0%nat \/ x0 + INR (n - 1) * step <= bound ->
  bound < x0 + INR n * step ->
  steps x0 bound step = n.
Proof.
  intros Hstep Hlow Hhigh.
  assert (Hle : (steps x0 bound step <= n)%nat).
  { destruct (Nat.le_gt_cases (steps x0 bound step) n) as [H|H]; [exact H|].
    apply steps_spec in H; [lra|exact Hstep]. }
  destruct Hlow as [->|Hlow]; [lia|].
  destruct n as [|n]; [lia|].
  replace (Datatypes.S n - 1)%nat with n in Hlow by lia.
  apply steps_spec in Hlow; [lia|exact Hstep].
Qed.

Lemma mm_linear (a b c : R) : mm (a - c * b) = mm a - c * mm b.
Proof. unfold mm, MM_PER_PT. field. lra. Qed.

Lemma mm_PAGE_W_MM : mm PAGE_W_MM = 612.
Proof. unfold mm, MM_PER_PT, PAGE_W_MM. lra. Qed.

Lemma mm_PAGE_H_MM : mm PAGE_H_MM = 792.
Proof. unfold mm, MM_PER_PT, PAGE_H_MM. lra. Qed.

(** * Unit conversion *)

(** In exact arithmetic the conversion is the multiplication by 72/25.4,
    and it is one to one. *)
Lemma mm_exact (x : R) : mm x = x * 72 / 25.4.
Proof. unfold mm, MM_PER_PT. field. lra. Qed.

Lemma Rabs_le_between (a b : R) : Rabs a <= b -> - b <= a <= b.
Proof. unfold Rabs. destruct (Rcase_abs a); lra. Qed.

Section Rounding.
Variable rnd : R -> R.
Variable u : R.
Hypothesis u_range : 0 <= u <= 1 / 16.
Hypothesis rnd_error : forall x, Rabs (rnd x - x) <= u * Rabs x.

Lemma rnd_bounds (x : R) : x - u * Rabs x <= rnd x <= x + u * Rabs x.
Proof.
  assert (H := rnd_error x). apply Rabs_le_between in H. lra.
Qed.



Lemma rnd_nonpos (x : R) : x <= 0 -> rnd x <= 0.
Proof.
  intros Hx. destruct (rnd_bounds x) as [_ H].
  rewrite Rabs_left1 in H by lra. nra.
Qed.

(** A rounded value is the exact one times [1 + e] with [e] at most [u]. *)
Lemma rnd_factor (x : R) : exists e, - u <= e <= u /\ rnd x = x * (1 + e).
Proof.
  destruct (Req_dec x 0) as [->|Hx].
  - exists 0. split; [lra|]. destruct (rnd_bounds 0) as [H1 H2].
    rewrite Rabs_R0 in H1, H2. lra.
  - exists ((rnd x - x) / x). split; [|field; exact Hx].
    destruct (rnd_bounds x) as [H1 H2].
    destruct (Rlt_or_le 0 x) as [Hpos|Hneg].
    + rewrite Rabs_pos_eq in H1, H2 by lra.
      split.
      * apply Rmult_le_reg_r with x; [exact Hpos|].
        unfold Rdiv. rewrite Rmult_assoc, Rinv_l by exact Hx. lra.
      * apply Rmult_le_reg_r with x; [exact Hpos|].
        unfold Rdiv. rewrite Rmult_assoc, Rinv_l by exact Hx. lra.
    + rewrite Rabs_left1 in H1, H2 by lra.
      assert (Hnx : 0 < - x) by lra.
      split.
      * apply Rmult_le_reg_r with (- x); [exact Hnx|].
        unfold Rdiv. replace ((rnd x - x) * / x * - x) with (- (rnd x - x))
          by (field; exact Hx). lra.
      * apply Rmult_le_reg_r with (- x); [exact Hnx|].
        unfold Rdiv. replace ((rnd x - x) * / x * - x) with (- (rnd x - x))
          by (field; exact Hx). lra.
Qed.

(** The rounded conversion is the exact one up to four roundings. *)
Lemma fl_mm_accuracy (x : R) :
  Rabs (fl.mm rnd x - x * 72 / 25.4) <= 4 * u * Rabs (x * 72 / 25.4).
Proof.
  unfold fl.mm, fl.MM_PER_PT, fl.div, fl.lit.
  destruct (rnd_factor 25.4) as [e3 [He3 ->]].
  destruct (rnd_factor (25.4 * (1 + e3) / 72)) as [e2 [He2 ->]].
  destruct (rnd_factor (x / (25.4 * (1 + e3) / 72 * (1 + e2))))
    as [e1 [He1 ->]].
  set (X := x * 72 / 25.4).
  set (D := (1 + e3) * (1 + e2)).
  assert (HD : (1 - u) * (1 - u) <= D).
  { unfold D. nra. }
  assert (HD0 : 0 < D) by nra.
  replace (x / (25.4 * (1 + e3) / 72 * (1 + e2)) * (1 + e1) - X)
    with (X * ((1 + e1 - D) / D))
    by (unfold X, D; field; nra).
  rewrite Rabs_mult, (Rmult_comm (4 * u)).
  apply Rmult_le_compat_l; [apply Rabs_pos|].
  assert (Hnum : - (3 * u + u * u) <= 1 + e1 - D <= 3 * u + u * u).
  { unfold D. split; nra. }
  assert (Hu4 : 3 * u + u * u <= 4 * u * ((1 - u) * (1 - u))) by nra.
  apply Rabs_le. split.
  - apply Rmult_le_reg_r with D; [exact HD0|].
    unfold Rdiv. rewrite Rmult_assoc, Rinv_l by lra. nra.
  - apply Rmult_le_reg_r with D; [exact HD0|].
    unfold Rdiv. rewrite Rmult_assoc, Rinv_l by lra. nra.
Qed.
End Rounding.

(** Two binary64 numbers, both finite, that the conversion sends to the same
    value. *)
Lemma b64_mm_overflow :
  b64.mm 1e308 = infinity /\ b64.mm 1.7e308 = infinity
  /\ is_finite 1e308 = true /\ is_finite 1.7e308 = true
  /\ PrimFloat.ltb 1e308 1.7e308 = true.
Proof. vm_compute. repeat split. Qed.

(** C7, as the code has it.  The converter divides by the fixed ratio
    25.4/72, so 72 units are one inch; one inch converts to 72 units exactly
    in binary64 as well.  With a rounding of relative error [u] after every
    operation, as in binary64 when nothing overflows or underflows, the result
    is [x * 72 / 25.4] up to a relative error of [4 u], and two lengths that
    convert to the same value differ by at most [4 u] times the sum of their
    magnitudes: the conversion loses nothing beyond the precision of the
    floats.  The code has no inverse, and none can return every finite [x]
    from its conversion: whatever the function [f], there is a finite
    binary64 number [x] that is not [f (mm x)], because the conversion of the
    largest numbers is infinite. *)
Theorem mm_conversion (rnd : R -> R) (u : R) :
  0 <= u <= 1 / 16 ->
  (forall x, Rabs (rnd x - x) <= u * Rabs x) ->
  (forall x : R, mm x = x * 72 / 25.4)
  /\ (forall x : R,
        Rabs (fl.mm rnd x - x * 72 / 25.4) <= 4 * u * Rabs (x * 72 / 25.4))
  /\ (forall x y : R,
        fl.mm rnd x = fl.mm rnd y ->
        Rabs (x - y) <= 4 * u * (Rabs x + Rabs y))
  /\ b64.mm 25.4 = 72%float
  /\ (forall f : float -> float,
        exists x : float, is_finite x = true /\ f (b64.mm x) <> x).
Proof.
  intros Hu Hrnd. split; [exact mm_exact|].
  split; [exact (fl_mm_accuracy rnd u Hu Hrnd)|].
  split; [|split].
  - intros x y Hxy.
    assert (Hx := fl_mm_accuracy rnd u Hu Hrnd x).
    assert (Hy := fl_mm_accuracy rnd u Hu Hrnd y).
    rewrite Hxy in Hx. apply Rabs_le_between in Hx. apply Rabs_le_between in Hy.
    assert (Hax : Rabs (x * 72 / 25.4) = Rabs x * 72 / 25.4).
    { unfold Rdiv. rewrite !Rabs_mult, (Rabs_pos_eq 72) by lra.
      rewrite (Rabs_pos_eq (/ 25.4)); [reflexivity|].
      left. apply Rinv_0_lt_compat. lra. }
    assert (Hay : Rabs (y * 72 / 25.4) = Rabs y * 72 / 25.4).
    { unfold Rdiv. rewrite !Rabs_mult, (Rabs_pos_eq 72) by lra.
      rewrite (Rabs_pos_eq (/ 25.4)); [reflexivity|].
      left. apply Rinv_0_lt_compat. lra. }
    rewrite Hax in Hx. rewrite Hay in Hy.
    assert (Hpx := Rabs_pos x). assert (Hpy := Rabs_pos y).
    apply Rabs_le. split; nra.
  - vm_compute. reflexivity.
  - intros f. destruct b64_mm_overflow as (H1 & H2 & F1 & F2 & Hlt).
    destruct (PrimFloat.ltb (f infinity) 1.5e308) eqn:Hcmp.
    + exists 1.7e308%float. split; [exact F2|]. rewrite H2.
      intros H. rewrite H in Hcmp. vm_compute in Hcmp. discriminate.
    + exists 1e308%float. split; [exact F1|]. rewrite H1.
      intros H. rewrite H in Hcmp. vm_compute in Hcmp. discriminate.
Qed.

Lemma mm_conversion_witness :
  Rabs (fl.mm (fun x => x * (1 + 1 / 1024)) 215.9 - 215.9 * 72 / 25.4)
  <= 4 * (1 / 1024) * Rabs (215.9 * 72 / 25.4).
Proof.
  assert (Hu : 0 <= 1 / 1024 <= 1 / 16) by lra.
  assert (Hrnd : forall x,
             Rabs (x * (1 + 1 / 1024) - x) <= 1 / 1024 * Rabs x).
  { intros x. replace (x * (1 + 1 / 1024) - x) with (1 / 1024 * x) by field.
    rewrite Rabs_mult, (Rabs_pos_eq (1 / 1024)) by lra. lra. }
  exact (proj1 (proj2 (mm_conversion (fun x => x * (1 + 1 / 1024)) (1 / 1024)
                         Hu Hrnd)) 215.9).
Defined.

(** C7, as the specification words it, fails: the conversion has no exact
    inverse on the finite numbers, for 1e308 and 1.7e308 are both finite and
    both convert to infinity. *)
Lemma mm_not_invertible :
  b64.mm 1e308 = b64.mm 1.7e308
  /\ is_finite 1e308 = true /\ is_finite 1.7e308 = true
  /\ PrimFloat.ltb 1e308 1.7e308 = true
  /\ is_finite (b64.mm 1e308) = false.
Proof. vm_compute. repeat split. Qed.

(** * The default page *)

(** C6, as the code has it.  The configuration type=grid, size=5mm,
    layout=full, orientation=portrait yields a document 612 units wide (215.9mm)
    and 792 units high (279.4mm), made of a white background rectangle of the
    full page and one clipped panel group that holds the grid of the inner
    area. *)
Theorem make_page_default (fuel : nat) :
  (page_fuel default_args < fuel)%nat ->
  make_page fuel default_args
  = Some
      (svg.mkSVG 612 792 (svg.mkViewBoxSpec 0 0 612 792)
         [ svg.Rect 0 0 612 792 (Some "white"%string);
           svg.G [svg.Translate (mm 10) (mm 10)] None
             [ svg.Defs
                 [svg.ClipPath "clip-0"
                    [svg.Rect 0 0 (mm 195.9) (mm 259.4) None]];
               svg.G [] (Some "url(#clip-0)"%string)
                 (grid_pattern (mm 195.9) (mm 259.4) (mm 5) (mm 0.3)
                    "#cccccc") ] ]).
Proof.
  intros Hfuel. rewrite make_page_total; [|simpl; lra|exact Hfuel].
  unfold page_document, inner_size_mm. simpl.
  rewrite mm_PAGE_W_MM, mm_PAGE_H_MM.
  replace (PAGE_W_MM - 2 * 10) with 195.9 by (unfold PAGE_W_MM; lra).
  replace (PAGE_H_MM - 2 * 10) with 259.4 by (unfold PAGE_H_MM; lra).
  replace (0 + mm 10) with (mm 10) by ring.
  reflexivity.
Qed.

Lemma make_page_default_witness :
  exists doc,
    make_page (Datatypes.S (page_fuel default_args)) default_args = Some doc
    /\ svg.width doc = 612 /\ svg.height doc = 792
    /\ List.length (svg.elements doc) = 2%nat.
Proof.
  eexists. split.
  - apply (make_page_default (Datatypes.S (page_fuel default_args))). lia.
  - simpl. repeat split.
Defined.

(** C6, as the specification words it, fails: the default page is 612 by 792
    units, which is more than two units away from 609.07 and more than 0.4
    units away from 791.53. *)
Lemma make_page_default_not_609 :
  exists fuel doc,
    make_page fuel default_args = Some doc
    /\ svg.width doc = 612 /\ svg.height doc = 792
    /\ svg.width doc - 609.07 > 2
    /\ svg.height doc - 791.53 > 0.4.
Proof.
  exists (Datatypes.S (page_fuel default_args)). eexists. split.
  - rewrite make_page_total; [reflexivity|simpl; lra|lia].
  - unfold page_document, inner_size_mm. simpl.
    rewrite mm_PAGE_W_MM, mm_PAGE_H_MM. repeat split; lra.
Qed.

(** * The panel compositor *)

(** C4. [make_panel] runs the generator on the inner area, the panel's size
    less twice the margin (in millimetres, as the generator expects them);
    the clip rectangle has exactly the size of that inner area in document
    units, the panel's size less twice the margin, both converted; the pattern
    lies in the group that refers to this clip; and the whole is translated by
    the offset plus the converted margin on both axes. *)
Theorem make_panel_composition (draw_fn : draw_fn_t) (fuel : nat)
    (panel_w_mm panel_h_mm offset_x offset_y margin_mm size line_width : R)
    (color clip_id : string) :
  make_panel draw_fn fuel panel_w_mm panel_h_mm offset_x offset_y margin_mm
    size line_width color clip_id
  = match draw_fn fuel (panel_w_mm - 2 * margin_mm)
            (panel_h_mm - 2 * margin_mm) size line_width color with
    | Some pattern_elements =>
        Some
          [svg.G
             [svg.Translate (offset_x + mm margin_mm) (offset_y + mm margin_mm)]
             None
             [ svg.Defs
                 [svg.ClipPath clip_id
                    [svg.Rect 0 0 (mm panel_w_mm - 2 * mm margin_mm)
                       (mm panel_h_mm - 2 * mm margin_mm) None]];
               svg.G [] (Some ("url(#" ++ clip_id ++ ")")%string)
                 pattern_elements ]]
    | None => None
    end.
Proof.
  unfold make_panel. rewrite <- !mm_linear.
  destruct (draw_fn _ _ _ _ _ _); reflexivity.
Qed.

(** * Colour normalisation *)

Lemma is_hex_char_In (ch : ascii) : is_hex_char ch = true <-> In ch hex_digits.
Proof.
  unfold is_hex_char. fold hex_digits. rewrite existsb_exists. split.
  - intros [x [Hin Heq]]. apply Ascii.eqb_eq in Heq. now subst.
  - intros Hin. exists ch. split; [exact Hin|apply Ascii.eqb_refl].
Qed.

Lemma forallb_hex (c : string) :
  forallb is_hex_char (list_ascii_of_string c) = true <-> all_hex c.
Proof.
  rewrite forallb_forall. unfold all_hex.
  split; intros H ch Hin; apply is_hex_char_In, H, Hin.
Qed.

Lemma length_In_368 (c : string) :
  existsb (Nat.eqb (String.length c)) [3; 6; 8]%nat = true
  <-> In (String.length c) [3; 6; 8]%nat.
Proof.
  rewrite existsb_exists. split.
  - intros [n [Hin Heq]]. apply Nat.eqb_eq in Heq. now rewrite Heq.
  - intros Hin. exists (String.length c). split; [exact Hin|apply Nat.eqb_refl].
Qed.

Lemma all_hex_no_hash (c : string) :
  all_hex c -> In (String.length c) [3; 6; 8]%nat -> startswith c "#" = false.
Proof.
  intros Hhex Hlen. destruct c as [|a rest].
  - simpl in Hlen. intuition discriminate.
  - assert (Ha : In a hex_digits) by (apply Hhex; simpl; auto).
    unfold hex_digits in Ha. simpl in Ha.
    repeat (destruct Ha as [<-|Ha]; [reflexivity|]). contradiction.
Qed.

(** C9. A colour made of hexadecimal digits only and 3, 6 or 8 characters
    long (it then has no leading '#') gets a '#' in front; a colour that starts
    with '#' is unchanged; and so is every colour that is not made of
    hexadecimal digits only or has another length.  So b3b3b3 becomes
    #b3b3b3, while #cccccc and red stay as they are. *)
Theorem normalize_color_spec (c : string) :
  (all_hex c -> In (String.length c) [3; 6; 8]%nat ->
   startswith c "#" = false /\ normalize_color c = ("#" ++ c)%string)
  /\ (startswith c "#" = true -> normalize_color c = c)
  /\ (~ (all_hex c /\ In (String.length c) [3; 6; 8]%nat) ->
      normalize_color c = c)
  /\ normalize_color "b3b3b3" = "#b3b3b3"%string
  /\ normalize_color "#cccccc" = "#cccccc"%string
  /\ normalize_color "red" = "red"%string.
Proof.
  repeat split; try reflexivity.
  - now apply all_hex_no_hash.
  - unfold normalize_color.
    rewrite (all_hex_no_hash c H H0).
    apply forallb_hex in H. apply length_In_368 in H0.
    now rewrite H, H0.
  - intros Hstart. unfold normalize_color. now rewrite Hstart.
  - intros Hnot. unfold normalize_color.
    destruct (forallb is_hex_char (list_ascii_of_string c)) eqn:Hhex;
      [|now rewrite andb_false_r].
    destruct (existsb (Nat.eqb (String.length c)) [3; 6; 8]%nat) eqn:Hlen;
      [|now rewrite andb_false_r].
    exfalso. apply Hnot. split; [now apply forallb_hex|now apply length_In_368].
Qed.

Lemma normalize_color_spec_witness :
  all_hex "b3b3b3"
  /\ In (String.length "b3b3b3") [3; 6; 8]%nat
  /\ normalize_color "b3b3b3" = "#b3b3b3"%string.
Proof.
  assert (Hhex : all_hex "b3b3b3").
  { apply forallb_hex. reflexivity. }
  assert (Hlen : In (String.length "b3b3b3") [3; 6; 8]%nat).
  { simpl. auto. }
  split; [exact Hhex|split; [exact Hlen|]].
  exact (proj2 (proj1 (normalize_color_spec "b3b3b3") Hhex Hlen)).
Defined.

(** * The square grid *)

Lemma steps_ext (x0 b1 b2 step : R) :
  0 < step ->
  (forall k : nat, x0 + INR k * step <= b1 <-> x0 + INR k * step <= b2) ->
  steps x0 b1 step = steps x0 b2 step.
Proof.
  intros Hstep Hext.
  assert (H : forall k, (k < steps x0 b1 step)%nat
                        <-> (k < steps x0 b2 step)%nat).
  { intros k. rewrite !steps_spec by exact Hstep. apply Hext. }
  destruct (Nat.lt_trichotomy (steps x0 b1 step) (steps x0 b2 step))
    as [Hlt|[Heq|Hgt]]; [|exact Heq|].
  - apply H in Hlt. lia.
  - apply H in Hgt. lia.
Qed.

Lemma vertical_lines_nth (W H S SW : R) (color : string) (k : nat) :
  (k < List.length (vertical_lines W H S SW color))%nat ->
  nth_error (vertical_lines W H S SW color) k
  = Some (svg.Line (INR k * S) 0 (INR k * S) H color SW None).
Proof.
  unfold vertical_lines. rewrite length_map, points_length. intros Hk.
  rewrite nth_error_map, points_nth by exact Hk. simpl.
  now replace (0 + INR k * S) with (INR k * S) by ring.
Qed.

Lemma horizontal_lines_nth (W H S SW : R) (color : string) (k : nat) :
  (k < List.length (horizontal_lines 0 W H S SW color))%nat ->
  nth_error (horizontal_lines 0 W H S SW color) k
  = Some (svg.Line 0 (INR k * S) W (INR k * S) color SW None).
Proof.
  unfold horizontal_lines. rewrite length_map, points_length. intros Hk.
  rewrite nth_error_map, points_nth by exact Hk. simpl.
  now replace (0 + INR k * S) with (INR k * S) by ring.
Qed.

Lemma line_count_floor (E S : R) :
  0 < S -> 0 <= E ->
  steps 0 (E + 0.01) S = (Z.to_nat (Zfloor ((E + 0.01) / S)) + 1)%nat.
Proof. intros HS HE. apply steps_floor; lra. Qed.

Lemma line_count_exact (E S : R) :
  0 < S -> 0 <= E ->
  (forall k : nat, INR k * S <= E + 0.01 -> INR k * S <= E) ->
  steps 0 (E + 0.01) S = (Z.to_nat (Zfloor (E / S)) + 1)%nat.
Proof.
  intros HS HE Hband. rewrite <- steps_floor by assumption.
  apply steps_ext; [exact HS|]. intros k. rewrite Rplus_0_l. split.
  - apply Hband.
  - lra.
Qed.

(** C2. On an area of [W] by [H] document units with a spacing [S > 0] the
    grid generator returns the vertical lines followed by the horizontal
    lines.  There are [floor ((W + 0.01) / S) + 1] vertical lines, which is
    [floor (W / S) + 1] unless a multiple of [S] lies in the tolerance band
    between [W] and [W + 0.01]; the [k]-th one, counting from zero, is at
    [x = k * S], so the first is at [x = 0], and it runs from [y = 0] to
    [y = H].  The same holds for the horizontal lines with the two axes
    exchanged. *)
Theorem draw_grid_lines (fuel : nat) (w h size line_width : R)
    (color : string) :
  0 < size -> 0 <= w -> 0 <= h ->
  (enough_fuel grid (mm w) (mm h) (mm size) < fuel)%nat ->
  exists vertical horizontal,
    draw_grid fuel w h size line_width color = Some (vertical ++ horizontal)
    /\ List.length vertical
       = (Z.to_nat (Zfloor ((mm w + 0.01) / mm size)) + 1)%nat
    /\ ((forall k : nat, INR k * mm size <= mm w + 0.01 ->
                         INR k * mm size <= mm w) ->
        List.length vertical = (Z.to_nat (Zfloor (mm w / mm size)) + 1)%nat)
    /\ (forall k, (k < List.length vertical)%nat ->
          nth_error vertical k
          = Some (svg.Line (INR k * mm size) 0 (INR k * mm size) (mm h)
                    color (mm line_width) None))
    /\ List.length horizontal
       = (Z.to_nat (Zfloor ((mm h + 0.01) / mm size)) + 1)%nat
    /\ ((forall k : nat, INR k * mm size <= mm h + 0.01 ->
                         INR k * mm size <= mm h) ->
        List.length horizontal = (Z.to_nat (Zfloor (mm h / mm size)) + 1)%nat)
    /\ (forall k, (k < List.length horizontal)%nat ->
          nth_error horizontal k
          = Some (svg.Line 0 (INR k * mm size) (mm w) (INR k * mm size)
                    color (mm line_width) None)).
Proof.
  intros Hsize Hw Hh Hfuel.
  assert (HS := mm_pos _ Hsize).
  assert (HW := mm_nonneg _ Hw). assert (HH := mm_nonneg _ Hh).
  exists (vertical_lines (mm w) (mm h) (mm size) (mm line_width) color).
  exists (horizontal_lines 0 (mm w) (mm h) (mm size) (mm line_width) color).
  split; [now apply draw_grid_pattern|].
  repeat split.
  - unfold vertical_lines. rewrite length_map, points_length.
    now apply line_count_floor.
  - intros Hband. unfold vertical_lines. rewrite length_map, points_length.
    now apply line_count_exact.
  - apply vertical_lines_nth.
  - unfold horizontal_lines. rewrite length_map, points_length.
    now apply line_count_floor.
  - intros Hband. unfold horizontal_lines. rewrite length_map, points_length.
    now apply line_count_exact.
  - apply horizontal_lines_nth.
Qed.

Lemma grid_fuel_example :
  enough_fuel grid (mm 50.8) (mm 50.8) (mm 25.4) = 3%nat.
Proof.
  assert (H : steps 0 (mm 50.8 + 0.01) (mm 25.4) = 3%nat).
  { unfold mm, MM_PER_PT.
    apply steps_unique; [lra|right; simpl; lra|simpl; lra]. }
  simpl. rewrite H. reflexivity.
Qed.

Lemma draw_grid_lines_witness :
  exists vertical horizontal,
    draw_grid 4 50.8 50.8 25.4 0.254 "#cccccc" = Some (vertical ++ horizontal)
    /\ List.length vertical = 3%nat
    /\ nth_error vertical 2
       = Some (svg.Line (INR 2 * mm 25.4) 0 (INR 2 * mm 25.4) (mm 50.8)
                 "#cccccc" (mm 0.254) None)
    /\ List.length horizontal = 3%nat.
Proof.
  assert (Hsize : 0 < 25.4) by lra.
  assert (Harea : 0 <= 50.8) by lra.
  assert (Hfuel : (enough_fuel grid (mm 50.8) (mm 50.8) (mm 25.4) < 4)%nat).
  { rewrite grid_fuel_example. lia. }
  assert (Hfloor : Zfloor ((mm 50.8 + 0.01) / mm 25.4) = 2%Z).
  { apply Zfloor_eq. unfold mm, MM_PER_PT. split; lra. }
  destruct (draw_grid_lines 4 50.8 50.8 25.4 0.254 "#cccccc"
              Hsize Harea Harea Hfuel)
    as (vertical & horizontal & Heq & Hlv & _ & Hnv & Hlh & _ & _).
  rewrite Hfloor in Hlv, Hlh.
  exists vertical, horizontal.
  split; [exact Heq|]. split; [exact Hlv|]. split; [|exact Hlh].
  apply Hnv. rewrite Hlv. simpl. lia.
Defined.

(** * The hexagonal grid *)

Lemma hexagon_commands (s cx cy : R) :
  hexagon s cx cy
  = [ move_to (hex_vertex s cx cy 0);
      line_to (hex_vertex s cx cy 1); line_to (hex_vertex s cx cy 2);
      line_to (hex_vertex s cx cy 3); line_to (hex_vertex s cx cy 4);
      line_to (hex_vertex s cx cy 5);
      svg.Z ].
Proof. reflexivity. Qed.

Lemma hexagons_length (s : R) (centers : list (R * R)) :
  List.length (flat_map (fun c => hexagon s (fst c) (snd c)) centers)
  = (7 * List.length centers)%nat.
Proof.
  induction centers as [|c cs IH]; [reflexivity|].
  cbn [flat_map]. rewrite length_app, IH, hexagon_commands. simpl. lia.
Qed.

Lemma hexagons_count (s : R) (centers : list (R * R)) :
  let d := flat_map (fun c => hexagon s (fst c) (snd c)) centers in
  List.length (filter is_move_to d) = List.length centers
  /\ List.length (filter is_line_to d) = (5 * List.length centers)%nat
  /\ List.length (filter is_close d) = List.length centers.
Proof.
  induction centers as [|c cs IH]; [repeat split|].
  cbn zeta in *. cbn [flat_map]. rewrite !filter_app, !length_app.
  destruct IH as (-> & -> & ->). rewrite hexagon_commands. simpl.
  repeat split; lia.
Qed.

Lemma hex_vertex_angle (s cx cy : R) (i : nat) :
  hex_vertex s cx cy i
  = (cx + s * cos (INR i * (PI / 3)), cy + s * sin (INR i * (PI / 3))).
Proof.
  unfold hex_vertex, radians.
  replace (60 * INR i * PI / 180) with (INR i * (PI / 3)) by field.
  reflexivity.
Qed.

Lemma hex_vertex_dist (s cx cy : R) (i : nat) :
  0 <= s -> dist (hex_vertex s cx cy i) (cx, cy) = s.
Proof.
  intros Hs. unfold dist, hex_vertex. simpl fst. simpl snd.
  set (a := radians (60 * INR i)).
  replace ((cx + s * cos a - cx) ^ 2 + (cy + s * sin a - cy) ^ 2)
    with (s ^ 2 * (Rsqr (sin a) + Rsqr (cos a))) by (unfold Rsqr; ring).
  rewrite sin2_cos2, Rmult_1_r. apply sqrt_pow2, Hs.
Qed.

(** C10. For a positive spacing the hex generator returns a list of exactly
    one element, a path without fill; the hexagons of the whole tiling are the
    subpaths of this one path, seven commands and one move-to for each
    centre. *)
Theorem draw_hex_single_path (fuel : nat) (w h size line_width : R)
    (color : string) :
  0 < size ->
  (enough_fuel hex (mm w) (mm h) (mm size) < fuel)%nat ->
  exists d,
    draw_hex fuel w h size line_width color
    = Some [svg.Path d color (mm line_width) "none"]
    /\ d = flat_map (fun c => hexagon (mm size) (fst c) (snd c))
             (hex_centers (mm w) (mm h) (mm size))
    /\ List.length d
       = (7 * List.length (hex_centers (mm w) (mm h) (mm size)))%nat
    /\ List.length (filter is_move_to d)
       = List.length (hex_centers (mm w) (mm h) (mm size)).
Proof.
  intros Hsize Hfuel. eexists. split; [|split; [reflexivity|split]].
  - rewrite draw_hex_pattern by assumption. reflexivity.
  - apply hexagons_length.
  - apply hexagons_count.
Qed.

Lemma draw_hex_single_path_witness :
  exists d,
    draw_hex (Datatypes.S (enough_fuel hex (mm 100) (mm 100) (mm 5)))
      100 100 5 0.3 "#cccccc"
    = Some [svg.Path d "#cccccc" (mm 0.3) "none"]
    /\ List.length (filter is_move_to d)
       = List.length (hex_centers (mm 100) (mm 100) (mm 5)).
Proof.
  assert (Hsize : 0 < 5) by lra.
  destruct (draw_hex_single_path
              (Datatypes.S (enough_fuel hex (mm 100) (mm 100) (mm 5)))
              100 100 5 0.3 "#cccccc" Hsize (Nat.lt_succ_diag_r _))
    as (d & Heq & _ & _ & Hmove).
  exists d. split; [exact Heq|exact Hmove].
Defined.

(** On an empty area the tiling is the one hexagon centred at the origin. *)
Lemma hex_centers_origin (S : R) :
  0 < S -> hex_centers 0 0 S = [(0, 0)].
Proof.
  intros HS. assert (Hsqrt := sqrt_lt_R0 3 ltac:(lra)).
  assert (Hh : 0 < S * sqrt 3) by (apply Rmult_lt_0_compat; lra).
  unfold hex_centers.
  replace (steps 0 (0 + S) (S * 2 * 0.75)) with 1%nat
    by (symmetry; apply steps_unique; [lra|right; simpl; lra|simpl; lra]).
  cbn [seq flat_map]. rewrite app_nil_r. unfold hex_column.
  cbn [Nat.modulo Nat.divmod fst snd Nat.sub truthy Nat.eqb negb].
  replace (steps 0 (0 + S * sqrt 3 / 2) (S * sqrt 3)) with 1%nat
    by (symmetry; apply steps_unique; [lra|right; simpl; lra|simpl; lra]).
  unfold points. cbn [seq map INR]. do 2 f_equal; ring.
Qed.

Lemma mm_0 : mm 0 = 0.
Proof. unfold mm, MM_PER_PT. lra. Qed.

(** C3, as the code has it.  For a positive spacing the path that the hex
    generator returns is made of one subpath for each hexagon: a move-to the
    vertex at 0 degrees, five line-to the vertices at 60, 120, 180, 240 and
    300 degrees, and a close, so five drawn segments and the closing one for
    the six sides; and each of the six vertices is at distance exactly the
    spacing, in document units, from the centre of its hexagon. *)
Theorem draw_hex_hexagons (fuel : nat) (w h size line_width : R)
    (color : string) :
  0 < size ->
  (enough_fuel hex (mm w) (mm h) (mm size) < fuel)%nat ->
  exists centers : list (R * R),
    draw_hex fuel w h size line_width color
    = Some [svg.Path
              (flat_map (fun c => hexagon (mm size) (fst c) (snd c)) centers)
              color (mm line_width) "none"]
    /\ forall cx cy, In (cx, cy) centers ->
         let v := hex_vertex (mm size) cx cy in
         hexagon (mm size) cx cy
         = [ svg.M (fst (v 0%nat)) (snd (v 0%nat));
             svg.L (fst (v 1%nat)) (snd (v 1%nat));
             svg.L (fst (v 2%nat)) (snd (v 2%nat));
             svg.L (fst (v 3%nat)) (snd (v 3%nat));
             svg.L (fst (v 4%nat)) (snd (v 4%nat));
             svg.L (fst (v 5%nat)) (snd (v 5%nat));
             svg.Z ]
         /\ List.length (filter is_line_to (hexagon (mm size) cx cy)) = 5%nat
         /\ List.length (filter is_close (hexagon (mm size) cx cy)) = 1%nat
         /\ forall i : nat,
              v i = (cx + mm size * cos (INR i * (PI / 3)),
                     cy + mm size * sin (INR i * (PI / 3)))
              /\ dist (v i) (cx, cy) = mm size.
Proof.
  intros Hsize Hfuel. exists (hex_centers (mm w) (mm h) (mm size)). split.
  - rewrite draw_hex_pattern by assumption. reflexivity.
  - intros cx cy _. cbv zeta. repeat split.
    + apply hex_vertex_angle.
    + apply hex_vertex_dist. left. apply mm_pos, Hsize.
Qed.

Lemma draw_hex_hexagons_witness :
  exists centers : list (R * R),
    draw_hex (Datatypes.S (enough_fuel hex (mm 0) (mm 0) (mm 25.4)))
      0 0 25.4 0.254 "#cccccc"
    = Some [svg.Path
              (flat_map (fun c => hexagon (mm 25.4) (fst c) (snd c)) centers)
              "#cccccc" (mm 0.254) "none"]
    /\ forall cx cy, In (cx, cy) centers ->
         dist (hex_vertex (mm 25.4) cx cy 4) (cx, cy) = mm 25.4.
Proof.
  assert (Hsize : 0 < 25.4) by lra.
  destruct (draw_hex_hexagons
              (Datatypes.S (enough_fuel hex (mm 0) (mm 0) (mm 25.4)))
              0 0 25.4 0.254 "#cccccc" Hsize (Nat.lt_succ_diag_r _))
    as (centers & Heq & Hall).
  exists centers. split; [exact Heq|].
  intros cx cy Hin. apply (Hall cx cy Hin).
Defined.

(** C3, as the specification words it, fails: the hexagon drawn on an empty
    area with a spacing of one inch has five line-to commands, not six,
    before its close. *)
Lemma draw_hex_five_line_to :
  exists fuel d,
    draw_hex fuel 0 0 25.4 0.254 "#cccccc"
    = Some [svg.Path d "#cccccc" (mm 0.254) "none"]
    /\ d = hexagon (mm 25.4) 0 0
    /\ List.length d = 7%nat
    /\ List.length (filter is_move_to d) = 1%nat
    /\ List.length (filter is_line_to d) = 5%nat
    /\ List.length (filter is_close d) = 1%nat.
Proof.
  exists (Datatypes.S (enough_fuel hex (mm 0) (mm 0) (mm 25.4))).
  exists (hexagon (mm 25.4) 0 0). split; [|repeat split].
  rewrite draw_hex_pattern; [|lra|lia].
  unfold hex_pattern. rewrite mm_0, hex_centers_origin by (apply mm_pos; lra).
  cbn [flat_map fst snd]. now rewrite app_nil_r.
Qed.

(** * Where the units are converted *)

Lemma mm_inch : mm 25.4 = 72.
Proof. unfold mm, MM_PER_PT. lra. Qed.

Lemma points_inch : points 0 72 (steps 0 (72 + 0.01) 72) = [0; 72].
Proof.
  replace (steps 0 (72 + 0.01) 72) with 2%nat
    by (symmetry; apply steps_unique; [lra|right; simpl; lra|simpl; lra]).
  unfold points. cbn [seq map INR]. repeat f_equal; ring.
Qed.

(** C1, as the code has it.  The compositor hands the generator the inner
    area as it computed it, in millimetres, together with the spacing and the
    stroke width in millimetres; it converts only the margin and the size of
    the clip rectangle.  Each of the five generators converts the width, the
    height, the spacing and the stroke width it receives itself, once each,
    and draws the pattern of the converted values. *)
Theorem generators_convert_their_arguments (t : pattern_type) (fuel : nat)
    (panel_w_mm panel_h_mm offset_x offset_y margin_mm size line_width : R)
    (color : string) (i : nat) :
  0 < size ->
  (enough_fuel t (mm (panel_w_mm - 2 * margin_mm))
     (mm (panel_h_mm - 2 * margin_mm)) (mm size) < fuel)%nat ->
  (forall draw_fn : draw_fn_t,
      make_panel draw_fn fuel panel_w_mm panel_h_mm offset_x offset_y
        margin_mm size line_width color (clip_name i)
      = option_map
          (fun pattern_elements =>
             [panel_group pattern_elements (panel_w_mm - 2 * margin_mm)
                (panel_h_mm - 2 * margin_mm) margin_mm
                (i, (offset_x, offset_y))])
          (draw_fn fuel (panel_w_mm - 2 * margin_mm)
             (panel_h_mm - 2 * margin_mm) size line_width color))
  /\ (forall w h : R,
        (enough_fuel t (mm w) (mm h) (mm size) < fuel)%nat ->
        DRAW_FNS t fuel w h size line_width color
        = Some (pattern t (mm w) (mm h) (mm size) (mm line_width) color))
  /\ make_panel (DRAW_FNS t) fuel panel_w_mm panel_h_mm offset_x offset_y
       margin_mm size line_width color (clip_name i)
     = Some
         [panel_group
            (pattern t (mm (panel_w_mm - 2 * margin_mm))
               (mm (panel_h_mm - 2 * margin_mm)) (mm size) (mm line_width)
               color)
            (panel_w_mm - 2 * margin_mm) (panel_h_mm - 2 * margin_mm)
            margin_mm (i, (offset_x, offset_y))].
Proof.
  intros Hsize Hfuel. split; [|split].
  - intros draw_fn. apply make_panel_eq.
  - intros w h Hwh. now apply DRAW_FNS_pattern.
  - rewrite make_panel_eq, DRAW_FNS_pattern by assumption. reflexivity.
Qed.

Lemma generators_convert_their_arguments_witness :
  make_panel draw_grid 3 25.4 25.4 0 0 0 25.4 0.254 "#cccccc" "clip-0"
  = Some
      [panel_group
         (grid_pattern (mm (25.4 - 2 * 0)) (mm (25.4 - 2 * 0)) (mm 25.4)
            (mm 0.254) "#cccccc")
         (25.4 - 2 * 0) (25.4 - 2 * 0) 0 (0%nat, (0, 0))].
Proof.
  assert (Hsize : 0 < 25.4) by lra.
  assert (Hfuel : (enough_fuel grid (mm (25.4 - 2 * 0)) (mm (25.4 - 2 * 0))
                     (mm 25.4) < 3)%nat).
  { replace (25.4 - 2 * 0) with 25.4 by lra. rewrite mm_inch. simpl.
    replace (steps 0 (72 + 0.01) 72) with 2%nat
      by (symmetry; apply steps_unique; [lra|right; simpl; lra|simpl; lra]).
    simpl. lia. }
  exact (proj2 (proj2 (generators_convert_their_arguments grid 3 25.4 25.4
                         0 0 0 25.4 0.254 "#cccccc" 0 Hsize Hfuel))).
Defined.

(** C1, as the specification words it, fails.  On the default page the
    generator is called with a width of 195.9 and a height of 259.4, the inner
    area in millimetres, while that area is more than 555 units wide; and the
    grid generator called with one inch in millimetres, 25.4, draws lines that
    are 72 units long, so it has converted its arguments itself. *)
Lemma generator_receives_millimetres :
  make_panel probe 0 PAGE_W_MM PAGE_H_MM 0 0 10 5 0.3 "#cccccc" "clip-0"
  = Some
      [svg.G [svg.Translate (0 + mm 10) (0 + mm 10)] None
         [ svg.Defs
             [svg.ClipPath "clip-0"
                [svg.Rect 0 0 (mm 195.9) (mm 259.4) None]];
           svg.G [] (Some "url(#clip-0)"%string)
             [svg.Rect 0 0 195.9 259.4 None] ]]
  /\ mm 195.9 > 555 /\ mm 259.4 > 735
  /\ exists fuel,
       draw_grid fuel 25.4 25.4 25.4 0.254 "#cccccc"
       = Some
           [ svg.Line 0 0 0 72 "#cccccc" (mm 0.254) None;
             svg.Line 72 0 72 72 "#cccccc" (mm 0.254) None;
             svg.Line 0 0 72 0 "#cccccc" (mm 0.254) None;
             svg.Line 0 72 72 72 "#cccccc" (mm 0.254) None ].
Proof.
  split; [|split; [|split]].
  - unfold make_panel, probe. simpl.
    replace (PAGE_W_MM - 2 * 10) with 195.9 by (unfold PAGE_W_MM; lra).
    replace (PAGE_H_MM - 2 * 10) with 259.4 by (unfold PAGE_H_MM; lra).
    reflexivity.
  - unfold mm, MM_PER_PT. lra.
  - unfold mm, MM_PER_PT. lra.
  - exists (Datatypes.S (enough_fuel grid (mm 25.4) (mm 25.4) (mm 25.4))).
    rewrite draw_grid_pattern; [|lra|lia].
    unfold grid_pattern, vertical_lines, horizontal_lines.
    rewrite mm_inch, points_inch. reflexivity.
Qed.

(** * The assembled page *)

Lemma panel_offsets_length (l : layout_t) (page_w_mm page_h_mm : R) :
  List.length (panel_offsets l page_w_mm page_h_mm) = panel_count l.
Proof. destruct l; reflexivity. Qed.

Lemma enumerate_length {A : Type} (xs : list A) :
  List.length (enumerate xs) = List.length xs.
Proof.
  unfold enumerate. rewrite length_combine, length_seq. apply Nat.min_id.
Qed.

(** C5. Whenever a page is assembled, and it is for every positive spacing,
    its elements are: first the white rectangle that covers the whole page;
    then one group for each panel of the layout, one for full, two for half
    and four for quarter, in the order of the layout's offsets, the [k]-th
    one with the clip [clip-k]; then the fold lines.  The half layout has one
    fold line, dashed and vertical, at half the page width, from the top to
    the bottom of the page; the other two layouts have none. *)
Theorem make_page_elements (fuel : nat) (args : Args) :
  (0 < size args -> (page_fuel args < fuel)%nat ->
   exists doc, make_page fuel args = Some doc)
  /\ forall doc, make_page fuel args = Some doc ->
       exists pattern_elements panels folds,
         svg.width doc = mm (fst (page_size_mm (orientation args)))
         /\ svg.height doc = mm (snd (page_size_mm (orientation args)))
         /\ svg.elements doc
            = svg.Rect 0 0 (svg.width doc) (svg.height doc)
                (Some "white"%string)
              :: panels ++ folds
         /\ panels
            = map (panel_group pattern_elements (fst (inner_size_mm args))
                     (snd (inner_size_mm args)) (margin args))
                  (enumerate
                     (panel_offsets (layout args)
                        (fst (page_size_mm (orientation args)))
                        (snd (page_size_mm (orientation args)))))
         /\ List.length panels = panel_count (layout args)
         /\ folds
            = match layout args with
              | half =>
                  [svg.Line (svg.width doc / 2) 0 (svg.width doc / 2)
                     (svg.height doc) "#999999" (mm 0.2) (Some [mm 2; mm 2])]
              | full | quarter => []
              end.
Proof.
  split.
  - intros Hsize Hfuel. eexists. now apply make_page_total.
  - intros doc Hdoc. rewrite make_page_eq in Hdoc.
    destruct (DRAW_FNS _ _ _ _ _ _ _) as [pattern_elements|];
      [|discriminate].
    injection Hdoc as <-. exists pattern_elements.
    unfold page_document.
    destruct (page_size_mm (orientation args)) as [page_w_mm page_h_mm].
    destruct (inner_size_mm args) as [inner_w inner_h].
    cbn [fst snd svg.width svg.height svg.elements].
    eexists. eexists.
    split; [reflexivity|]. split; [reflexivity|].
    split; [reflexivity|]. split; [reflexivity|]. split.
    + now rewrite length_map, enumerate_length, panel_offsets_length.
    + destruct (layout args); reflexivity.
Qed.

Lemma make_page_elements_witness :
  exists doc panels folds,
    make_page (Datatypes.S (page_fuel default_args)) default_args = Some doc
    /\ svg.elements doc
       = svg.Rect 0 0 (svg.width doc) (svg.height doc) (Some "white"%string)
         :: panels ++ folds
    /\ List.length panels = 1%nat
    /\ folds = [].
Proof.
  assert (Hsize : 0 < size default_args) by (simpl; lra).
  destruct (make_page_elements (Datatypes.S (page_fuel default_args))
              default_args) as [Htotal Hshape].
  destruct (Htotal Hsize (Nat.lt_succ_diag_r _)) as [doc Hdoc].
  destruct (Hshape doc Hdoc)
    as (pattern_elements & panels & folds & _ & _ & Hels & _ & Hlen & Hfolds).
  exists doc, panels, folds.
  split; [exact Hdoc|]. split; [exact Hels|]. split; [exact Hlen|exact Hfolds].
Defined.

(** * Termination and size *)

Lemma steps_le_real (x0 bound step : R) :
  0 < step -> x0 <= bound + step ->
  INR (steps x0 bound step) * step <= bound - x0 + step.
Proof.
  intros Hstep Hx. destruct (steps x0 bound step) as [|n] eqn:E.
  - simpl. lra.
  - assert (Hn : (n < steps x0 bound step)%nat) by lia.
    apply steps_spec in Hn; [|exact Hstep].
    rewrite S_INR, Rmult_plus_distr_r. lra.
Qed.

Lemma steps_ge_1 (x0 bound step : R) :
  0 < step -> x0 <= bound -> 1 <= INR (steps x0 bound step).
Proof.
  intros Hstep Hx.
  assert (H : (0 < steps x0 bound step)%nat).
  { apply steps_spec; [exact Hstep|]. simpl. lra. }
  change 1 with (INR 1). apply le_INR. lia.
Qed.

Lemma sqrt_3_bounds : 0 < sqrt 3 <= 2.
Proof.
  assert (Hpos := sqrt_lt_R0 3 ltac:(lra)).
  assert (Hsq := sqrt_sqrt 3 ltac:(lra)).
  split; [exact Hpos|]. nra.
Qed.

(** The length of each diagonal family of the isometric grid. *)
Lemma iso_diagonal_count (W H S : R) :
  0 < S -> 0 <= W -> 0 <= H ->
  INR (steps (- H / tan (radians 60)) W (S / sin (radians 60))) * S
  <= W + H / 2 + S.
Proof.
  intros HS HW HH. rewrite radians_60, tan_PI3, sin_PI3.
  destruct sqrt_3_bounds as [Hr0 Hr2]. set (r := sqrt 3) in *.
  assert (Hdx : 0 < S / (r / 2)).
  { apply Rdiv_lt_0_compat; lra. }
  assert (Hx0 : - H / r <= 0).
  { unfold Rdiv. rewrite <- Ropp_mult_distr_l.
    assert (0 <= H * / r); [|lra].
    apply Rmult_le_pos; [exact HH|]. left. now apply Rinv_0_lt_compat. }
  assert (Hle := steps_le_real (- H / r) W (S / (r / 2)) Hdx ltac:(lra)).
  set (n := INR (steps (- H / r) W (S / (r / 2)))) in *.
  assert (Hn : 0 <= n) by apply pos_INR.
  apply Rmult_le_compat_r with (r := r / 2) in Hle; [|lra].
  replace (n * (S / (r / 2)) * (r / 2)) with (n * S) in Hle by (field; lra).
  replace ((W - - H / r + S / (r / 2)) * (r / 2))
    with (r * W / 2 + H / 2 + S) in Hle by (field; lra).
  nra.
Qed.

Lemma pattern_length_bound (t : pattern_type) (W H S SW : R)
    (color : string) :
  0 < S -> 0 <= W -> 0 <= H ->
  INR (List.length (pattern t W H S SW color)) * (S * S)
  <= 3 * ((W + S + 0.01) * (H + S + 0.01)).
Proof.
  intros HS HW HH.
  assert (Hx := steps_le_real 0 (W + 0.01) S HS ltac:(lra)).
  assert (Hy := steps_le_real 0 (H + 0.01) S HS ltac:(lra)).
  assert (Hx1 := steps_ge_1 0 (W + 0.01) S HS ltac:(lra)).
  assert (Hy1 := steps_ge_1 0 (H + 0.01) S HS ltac:(lra)).
  set (nx := INR (steps 0 (W + 0.01) S)) in *.
  set (ny := INR (steps 0 (H + 0.01) S)) in *.
  destruct t; simpl pattern.
  - unfold grid_pattern, vertical_lines, horizontal_lines.
    rewrite length_app, !length_map, !points_length, plus_INR.
    fold nx ny. nra.
  - unfold dots_pattern. rewrite length_flat_map.
    rewrite (map_ext _ (fun _ => steps 0 (H + 0.01) S))
      by (intros; now rewrite length_map, points_length).
    assert (Hsum : forall (l : list R) (c : nat),
               list_sum (map (fun _ => c) l) = (List.length l * c)%nat).
    { intros l c. induction l as [|a l IH]; simpl; [reflexivity|].
      now rewrite IH. }
    rewrite Hsum, points_length, mult_INR. fold nx ny.
    assert (Hxy : nx * S * (ny * S) <= (W + 0.01 + S) * (H + 0.01 + S)).
    { apply Rmult_le_compat; nra. }
    nra.
  - unfold hex_pattern. simpl. nra.
  - unfold lined_pattern, horizontal_lines.
    rewrite length_map, points_length.
    assert (Hl := steps_le_real S (H + 0.01) S HS ltac:(lra)).
    set (nl := INR (steps S (H + 0.01) S)) in *.
    assert (0 <= nl) by apply pos_INR. nra.
  - unfold iso_pattern, horizontal_lines. cbv zeta.
    rewrite !length_app, !length_map, !points_length, !plus_INR.
    fold ny.
    assert (Hd := iso_diagonal_count W H S HS HW HH).
    set (nd := INR (steps (- H / tan (radians 60)) W
                      (S / sin (radians 60)))) in *.
    assert (0 <= nd) by apply pos_INR. nra.
Qed.

Lemma Rle_div_of_mult (a b c : R) : 0 < c -> a * c <= b -> a <= b / c.
Proof.
  intros Hc H. apply Rmult_le_reg_r with c; [exact Hc|].
  unfold Rdiv. rewrite Rmult_assoc, Rinv_l by lra. lra.
Qed.

Lemma pattern_length_le_bound (t : pattern_type) (W H S SW : R)
    (color : string) :
  0 < S -> 0 <= W -> 0 <= H ->
  INR (List.length (pattern t W H S SW color)) <= pattern_bound W H S.
Proof.
  intros HS HW HH. unfold pattern_bound.
  apply Rle_div_of_mult; [nra|]. now apply pattern_length_bound.
Qed.

(** In exact arithmetic, where no sum is rounded: for every positive spacing
    each of the five generators returns, whatever the area, as soon as the
    fuel exceeds the length of its longest loop, and so does the page
    assembly, which composes at most four panels and at most one fold line
    after the background.  On an area of [W] by [H] units with [W] and [H]
    not negative, a generator returns at most
    [3 (W + S + 0.01) (H + S + 0.01) / S^2] elements (the hexagon generator
    returns one path, whatever the number of its hexagons). *)
Lemma generators_terminate_exact :
  (forall (t : pattern_type) (fuel : nat) (w h size line_width : R)
          (color : string),
      0 < size ->
      (enough_fuel t (mm w) (mm h) (mm size) < fuel)%nat ->
      exists els,
        DRAW_FNS t fuel w h size line_width color = Some els
        /\ (0 <= w -> 0 <= h ->
            INR (List.length els) <= pattern_bound (mm w) (mm h) (mm size)))
  /\ (forall (fuel : nat) (args : Args),
        0 < size args ->
        (page_fuel args < fuel)%nat ->
        exists doc pattern_elements panels folds,
          make_page fuel args = Some doc
          /\ svg.elements doc
             = svg.Rect 0 0 (svg.width doc) (svg.height doc)
                 (Some "white"%string)
               :: panels ++ folds
          /\ panels
             = map (panel_group pattern_elements (fst (inner_size_mm args))
                      (snd (inner_size_mm args)) (margin args))
                   (enumerate
                      (panel_offsets (layout args)
                         (fst (page_size_mm (orientation args)))
                         (snd (page_size_mm (orientation args)))))
          /\ (List.length panels <= 4)%nat
          /\ (List.length folds <= 1)%nat
          /\ (0 <= fst (inner_size_mm args) ->
              0 <= snd (inner_size_mm args) ->
              INR (List.length pattern_elements)
              <= pattern_bound (mm (fst (inner_size_mm args)))
                   (mm (snd (inner_size_mm args))) (mm (size args)))).
Proof.
  split.
  - intros t fuel w h size line_width color Hsize Hfuel.
    eexists. split; [now apply DRAW_FNS_pattern|].
    intros Hw Hh.
    apply pattern_length_le_bound;
      [now apply mm_pos|now apply mm_nonneg|now apply mm_nonneg].
  - intros fuel args Hsize Hfuel.
    rewrite make_page_total by assumption.
    unfold page_document.
    destruct (page_size_mm (orientation args)) as [page_w_mm page_h_mm].
    destruct (inner_size_mm args) as [inner_w inner_h].
    cbn [fst snd].
    eexists. eexists. eexists. eexists.
    split; [reflexivity|]. cbn [svg.elements svg.width svg.height].
    split; [reflexivity|]. split; [reflexivity|]. split; [|split].
    + rewrite length_map, enumerate_length, panel_offsets_length.
      destruct (layout args); simpl; lia.
    + destruct (layout args); simpl; lia.
    + intros Hw Hh.
      apply pattern_length_le_bound;
        [now apply mm_pos|now apply mm_nonneg|now apply mm_nonneg].
Qed.

(** In exact arithmetic too the area over the square of the spacing is no
    bound: on an area of one inch by one inch with a spacing of one inch the
    dot generator returns four circles, and that quotient is one. *)
Lemma dots_exceed_area_over_spacing_squared :
  exists fuel els,
    draw_dots fuel 25.4 25.4 25.4 0.254 "#cccccc" = Some els
    /\ List.length els = 4%nat
    /\ mm 25.4 * mm 25.4 / (mm 25.4 * mm 25.4) = 1
    /\ INR (List.length els) > mm 25.4 * mm 25.4 / (mm 25.4 * mm 25.4).
Proof.
  exists (Datatypes.S (enough_fuel dots (mm 25.4) (mm 25.4) (mm 25.4))).
  eexists. split; [rewrite draw_dots_pattern; [reflexivity|lra|lia]|].
  unfold dots_pattern. rewrite mm_inch, points_inch.
  cbn [flat_map map app List.length]. simpl INR.
  repeat split; try lra.
Qed.

(** * The dot grid *)

Lemma points_In (x0 step : R) (n : nat) (x : R) :
  In x (points x0 step n)
  <-> exists k, (k < n)%nat /\ x = x0 + INR k * step.
Proof.
  unfold points. rewrite in_map_iff. split.
  - intros [k [<- Hk]]. apply in_seq in Hk. exists k. split; [lia|reflexivity].
  - intros [k [Hk ->]]. exists k. split; [reflexivity|apply in_seq; lia].
Qed.

Lemma nth_error_flat_map_const {A B : Type} (f : A -> list B) (n : nat)
    (l : list A) :
  (forall a, In a l -> List.length (f a) = n) ->
  forall i j, (j < n)%nat ->
    nth_error (flat_map f l) (i * n + j)
    = match nth_error l i with
      | Some a => nth_error (f a) j
      | None => None
      end.
Proof.
  induction l as [|a l IH]; intros Hlen i j Hj.
  - cbn [flat_map]. now rewrite !nth_error_nil.
  - assert (Ha : List.length (f a) = n) by (apply Hlen; left; reflexivity).
    destruct i as [|i]; cbn [flat_map nth_error].
    + rewrite nth_error_app1 by lia. reflexivity.
    + rewrite nth_error_app2 by (rewrite Ha; simpl; lia).
      replace (Datatypes.S i * n + j - List.length (f a))%nat
        with (i * n + j)%nat by (rewrite Ha; simpl; lia).
      apply IH; [|exact Hj]. intros b Hb. apply Hlen. right. exact Hb.
Qed.

Lemma length_flat_map_const {A B : Type} (f : A -> list B) (n : nat)
    (l : list A) :
  (forall a, In a l -> List.length (f a) = n) ->
  List.length (flat_map f l) = (List.length l * n)%nat.
Proof.
  induction l as [|a l IH]; intros Hlen; [reflexivity|].
  cbn [flat_map List.length]. rewrite length_app, IH.
  - rewrite (Hlen a) by (left; reflexivity). simpl. lia.
  - intros b Hb. apply Hlen. right. exact Hb.
Qed.

(** X1. For a positive spacing the dot generator returns one circle for each
    pair of a column [i] and a row [j], column after column and, in a column,
    from the top down: the circle at [(i * S, j * S)], of radius half the
    converted line width and filled with the colour.  There are as many
    columns as the grid has vertical lines and as many rows as it has
    horizontal lines. *)
Theorem draw_dots_circles (fuel : nat) (w h size line_width : R)
    (color : string) :
  0 < size ->
  (enough_fuel dots (mm w) (mm h) (mm size) < fuel)%nat ->
  exists circles,
    draw_dots fuel w h size line_width color = Some circles
    /\ List.length circles
       = (steps 0 (mm w + 0.01) (mm size)
          * steps 0 (mm h + 0.01) (mm size))%nat
    /\ (0 <= w -> 0 <= h ->
        List.length circles
        = ((Z.to_nat (Zfloor ((mm w + 0.01) / mm size)) + 1)
           * (Z.to_nat (Zfloor ((mm h + 0.01) / mm size)) + 1))%nat)
    /\ forall i j,
         (i < steps 0 (mm w + 0.01) (mm size))%nat ->
         (j < steps 0 (mm h + 0.01) (mm size))%nat ->
         nth_error circles (i * steps 0 (mm h + 0.01) (mm size) + j)
         = Some (svg.Circle (INR i * mm size) (INR j * mm size)
                   (mm line_width / 2) color).
Proof.
  intros Hsize Hfuel. assert (HS := mm_pos _ Hsize).
  exists (dots_pattern (mm w) (mm h) (mm size) (mm line_width) color).
  split; [now apply draw_dots_pattern|].
  set (nx := steps 0 (mm w + 0.01) (mm size)).
  set (ny := steps 0 (mm h + 0.01) (mm size)).
  assert (Hrow : forall x, In x (points 0 (mm size) nx) ->
            List.length
              (map (fun y => svg.Circle x y (mm line_width / 2) color)
                   (points 0 (mm size) ny)) = ny).
  { intros x _. now rewrite length_map, points_length. }
  unfold dots_pattern. fold nx ny. split; [|split].
  - rewrite (length_flat_map_const _ ny) by exact Hrow.
    now rewrite points_length.
  - intros Hw Hh.
    rewrite (length_flat_map_const _ ny) by exact Hrow.
    rewrite points_length. unfold nx, ny.
    rewrite !line_count_floor; auto using mm_nonneg.
  - intros i j Hi Hj.
    rewrite (nth_error_flat_map_const _ ny) by assumption.
    rewrite points_nth by exact Hi.
    rewrite nth_error_map, points_nth by exact Hj. simpl.
    do 2 f_equal; ring.
Qed.

Lemma dots_fuel_example :
  (enough_fuel dots (mm 50.8) (mm 50.8) (mm 25.4) < 4)%nat.
Proof.
  change (enough_fuel dots) with (enough_fuel grid).
  rewrite grid_fuel_example. lia.
Qed.

Lemma draw_dots_circles_witness :
  exists circles,
    draw_dots 4 50.8 50.8 25.4 0.254 "#cccccc" = Some circles
    /\ List.length circles = 9%nat.
Proof.
  assert (Hsize : 0 < 25.4) by lra.
  assert (Harea : 0 <= 50.8) by lra.
  assert (Hfloor : Zfloor ((mm 50.8 + 0.01) / mm 25.4) = 2%Z).
  { apply Zfloor_eq. unfold mm, MM_PER_PT. split; lra. }
  destruct (draw_dots_circles 4 50.8 50.8 25.4 0.254 "#cccccc"
              Hsize dots_fuel_example)
    as (circles & Heq & _ & Hlen & _).
  exists circles. split; [exact Heq|].
  rewrite (Hlen Harea Harea), Hfloor. reflexivity.
Defined.

Lemma points_origin_In (bound step : R) :
  0 < step -> 0 <= bound -> In 0 (points 0 step (steps 0 bound step)).
Proof.
  intros Hstep Hb. apply points_In. exists 0%nat. split.
  - apply steps_spec; [exact Hstep|]. simpl. lra.
  - simpl. ring.
Qed.

(** X2. The dots lie on the crossings of the square grid drawn with the same
    arguments, and on all of them: a circle is centred at [(x, y)] exactly
    when the grid has its vertical line at [x] and its horizontal line at
    [y]. *)
Theorem dots_at_grid_crossings (fuel : nat) (w h size line_width : R)
    (color : string) :
  0 < size ->
  (enough_fuel grid (mm w) (mm h) (mm size) < fuel)%nat ->
  exists lines circles,
    draw_grid fuel w h size line_width color = Some lines
    /\ draw_dots fuel w h size line_width color = Some circles
    /\ forall x y,
         In (svg.Circle x y (mm line_width / 2) color) circles
         <-> In (svg.Line x 0 x (mm h) color (mm line_width) None) lines
             /\ In (svg.Line 0 y (mm w) y color (mm line_width) None) lines.
Proof.
  intros Hsize Hfuel. assert (HS := mm_pos _ Hsize).
  exists (grid_pattern (mm w) (mm h) (mm size) (mm line_width) color).
  exists (dots_pattern (mm w) (mm h) (mm size) (mm line_width) color).
  split; [now apply draw_grid_pattern|].
  split; [now apply draw_dots_pattern|].
  intros x y.
  unfold grid_pattern, dots_pattern, vertical_lines, horizontal_lines.
  set (xs := points 0 (mm size) (steps 0 (mm w + 0.01) (mm size))).
  set (ys := points 0 (mm size) (steps 0 (mm h + 0.01) (mm size))).
  assert (Hdots :
    In (svg.Circle x y (mm line_width / 2) color)
       (flat_map
          (fun x0 => map (fun y0 => svg.Circle x0 y0 (mm line_width / 2) color)
                         ys) xs)
    <-> In x xs /\ In y ys).
  { rewrite in_flat_map. split.
    - intros [x0 [Hx0 Hin]]. apply in_map_iff in Hin.
      destruct Hin as [y0 [Heq Hy0]]. injection Heq as -> ->. now split.
    - intros [Hx Hy]. exists x. split; [exact Hx|].
      apply in_map_iff. exists y. now split. }
  rewrite Hdots, !in_app_iff, !in_map_iff. split.
  - intros [Hx Hy]. split.
    + left. exists x. now split.
    + right. exists y. now split.
  - intros [[Hv|Hv] [Hz|Hz]].
    + destruct Hv as [x0 [Heq Hx0]]. injection Heq as ->.
      destruct Hz as [x1 [Heq Hx1]]. injection Heq as E1 E2 E3 E4.
      split; [exact Hx0|]. subst.
      apply points_origin_In; [exact HS|]. lra.
    + destruct Hv as [x0 [Heq Hx0]]. injection Heq as ->.
      destruct Hz as [y0 [Heq Hy0]]. injection Heq as ->.
      now split.
    + destruct Hv as [y0 [Heq Hy0]]. injection Heq as E1 E2 E3 E4.
      destruct Hz as [x1 [Heq Hx1]]. injection Heq as F1 F2 F3 F4.
      subst. split; apply points_origin_In; try exact HS.
      * lra.
      * lra.
    + destruct Hv as [y0 [Heq Hy0]]. injection Heq as E1 E2 E3 E4.
      destruct Hz as [y1 [Heq Hy1]]. injection Heq as ->.
      split; [|exact Hy1]. subst.
      apply points_origin_In; [exact HS|]. lra.
Qed.

Lemma dots_at_grid_crossings_witness :
  exists lines circles,
    draw_grid 4 50.8 50.8 25.4 0.254 "#cccccc" = Some lines
    /\ draw_dots 4 50.8 50.8 25.4 0.254 "#cccccc" = Some circles
    /\ (In (svg.Circle 72 144 (mm 0.254 / 2) "#cccccc") circles
        <-> In (svg.Line 72 0 72 (mm 50.8) "#cccccc" (mm 0.254) None) lines
            /\ In (svg.Line 0 144 (mm 50.8) 144 "#cccccc" (mm 0.254) None)
                  lines).
Proof.
  assert (Hsize : 0 < 25.4) by lra.
  assert (Hfuel : (enough_fuel grid (mm 50.8) (mm 50.8) (mm 25.4) < 4)%nat).
  { rewrite grid_fuel_example. lia. }
  destruct (dots_at_grid_crossings 4 50.8 50.8 25.4 0.254 "#cccccc"
              Hsize Hfuel) as (lines & circles & Hg & Hd & Hiff).
  exists lines, circles. split; [exact Hg|]. split; [exact Hd|].
  exact (Hiff 72 144).
Defined.

(** * Ruled lines *)

Lemma steps_shift (bound step : R) :
  0 < step -> steps step bound step = Nat.pred (steps 0 bound step).
Proof.
  intros Hstep.
  assert (H : forall k, (k < steps step bound step)%nat
                        <-> (Datatypes.S k < steps 0 bound step)%nat).
  { intros k. rewrite !steps_spec by exact Hstep.
    rewrite <- INR_S_step. lra. }
  destruct (Nat.lt_trichotomy (steps step bound step)
              (Nat.pred (steps 0 bound step))) as [Hlt|[Heq|Hgt]];
    [|exact Heq|].
  - assert (Hk : (Datatypes.S (steps step bound step)
                  < steps 0 bound step)%nat) by lia.
    apply H in Hk. lia.
  - assert (Hk : (Nat.pred (steps 0 bound step)
                  < steps step bound step)%nat) by lia.
    apply H in Hk. lia.
Qed.

Lemma lined_fuel_le_grid (W H S : R) :
  0 < S -> (enough_fuel lined W H S <= enough_fuel grid W H S)%nat.
Proof. intros HS. simpl. rewrite steps_shift by exact HS. lia. Qed.

(** X3. For a positive spacing the ruled-line generator returns horizontal
    lines only, each across the whole width; the [k]-th one, counting from
    zero, is at [y = (k + 1) * S], so the first line is one spacing below the
    top edge and no line is on the edge itself.  On an area that is not
    negative there are [floor ((H + 0.01) / S)] lines, and they are the
    horizontal lines of the square grid drawn with the same arguments without
    the first one. *)
Theorem draw_lined_lines (fuel : nat) (w h size line_width : R)
    (color : string) :
  0 < size ->
  (enough_fuel grid (mm w) (mm h) (mm size) < fuel)%nat ->
  exists ruled,
    draw_lined fuel w h size line_width color = Some ruled
    /\ (forall k, (k < List.length ruled)%nat ->
          nth_error ruled k
          = Some (svg.Line 0 (INR (k + 1) * mm size) (mm w)
                    (INR (k + 1) * mm size) color (mm line_width) None))
    /\ (forall e, In e ruled ->
          exists y, mm size <= y
                    /\ e = svg.Line 0 y (mm w) y color (mm line_width) None)
    /\ (0 <= h ->
        List.length ruled = Z.to_nat (Zfloor ((mm h + 0.01) / mm size))
        /\ exists vertical,
             List.length vertical = steps 0 (mm w + 0.01) (mm size)
             /\ draw_grid fuel w h size line_width color
                = Some (vertical
                        ++ svg.Line 0 0 (mm w) 0 color (mm line_width) None
                        :: ruled)).
Proof.
  intros Hsize Hfuel. assert (HS := mm_pos _ Hsize).
  assert (Hfuel' : (enough_fuel lined (mm w) (mm h) (mm size) < fuel)%nat).
  { eapply Nat.le_lt_trans; [apply lined_fuel_le_grid, HS|exact Hfuel]. }
  exists (lined_pattern (mm w) (mm h) (mm size) (mm line_width) color).
  split; [now apply draw_lined_pattern|].
  unfold lined_pattern, horizontal_lines.
  set (n := steps (mm size) (mm h + 0.01) (mm size)).
  split; [|split].
  - rewrite length_map, points_length. intros k Hk.
    rewrite nth_error_map, points_nth by exact Hk. simpl.
    replace (mm size + INR k * mm size) with (INR (k + 1) * mm size)
      by (rewrite plus_INR; simpl; ring).
    reflexivity.
  - intros e He. apply in_map_iff in He. destruct He as [y [<- Hy]].
    exists y. split; [|reflexivity].
    apply points_In in Hy. destruct Hy as [k [_ ->]].
    assert (0 <= INR k) by apply pos_INR. nra.
  - intros Hh. assert (HH := mm_nonneg _ Hh). split.
    + rewrite length_map, points_length. unfold n.
      rewrite steps_shift, line_count_floor by assumption. lia.
    + exists (vertical_lines (mm w) (mm h) (mm size) (mm line_width) color).
      split; [unfold vertical_lines; now rewrite length_map, points_length|].
      rewrite draw_grid_pattern by assumption.
      unfold grid_pattern, horizontal_lines. do 2 f_equal.
      rewrite line_count_floor by assumption.
      rewrite Nat.add_1_r, points_S. cbn [map]. f_equal.
      unfold n. rewrite steps_shift, line_count_floor by assumption.
      rewrite Nat.add_1_r. cbn [Nat.pred].
      now replace (0 + mm size) with (mm size) by ring.
Qed.

Lemma draw_lined_lines_witness :
  exists ruled,
    draw_lined 4 50.8 50.8 25.4 0.254 "#cccccc" = Some ruled
    /\ List.length ruled = 2%nat.
Proof.
  assert (Hsize : 0 < 25.4) by lra.
  assert (Harea : 0 <= 50.8) by lra.
  assert (Hfuel : (enough_fuel grid (mm 50.8) (mm 50.8) (mm 25.4) < 4)%nat).
  { rewrite grid_fuel_example. lia. }
  assert (Hfloor : Zfloor ((mm 50.8 + 0.01) / mm 25.4) = 2%Z).
  { apply Zfloor_eq. unfold mm, MM_PER_PT. split; lra. }
  destruct (draw_lined_lines 4 50.8 50.8 25.4 0.254 "#cccccc" Hsize Hfuel)
    as (ruled & Heq & _ & _ & Hgrid).
  exists ruled. split; [exact Heq|].
  destruct (Hgrid Harea) as [Hlen _]. rewrite Hlen, Hfloor. reflexivity.
Defined.

(** * The isometric grid *)

Lemma diagonal_length (H : R) :
  0 < H -> sqrt ((H / sqrt 3) ^ 2 + H ^ 2) = 2 * H / sqrt 3.
Proof.
  intros HH. destruct sqrt_3_bounds as [Hr0 _].
  assert (Hr2 := sqrt_sqrt 3 ltac:(lra)).
  replace ((H / sqrt 3) ^ 2 + H ^ 2) with ((2 * H / sqrt 3) ^ 2).
  - apply sqrt_pow2. apply Rmult_le_pos; [lra|].
    left. now apply Rinv_0_lt_compat.
  - replace ((2 * H / sqrt 3) ^ 2)
      with (4 * H ^ 2 / (sqrt 3 * sqrt 3)) by (field; lra).
    replace ((H / sqrt 3) ^ 2 + H ^ 2)
      with (H ^ 2 * (1 + sqrt 3 * sqrt 3) / (sqrt 3 * sqrt 3))
      by (field; lra).
    rewrite Hr2. field.
Qed.

(** Two neighbours of a diagonal family are one spacing apart, measured at
    right angles to them. *)
Lemma diagonal_distance (x H S y1 y2 : R) :
  0 < H -> 0 < S ->
  (y1 = H /\ y2 = 0) \/ (y1 = 0 /\ y2 = H) ->
  point_line_distance (x + S / (sqrt 3 / 2), y1) (x, y1) (x + H / sqrt 3, y2)
  = S.
Proof.
  intros HH HS Hy. destruct sqrt_3_bounds as [Hr0 _].
  assert (Hdx : 0 < S / (sqrt 3 / 2)) by (apply Rdiv_lt_0_compat; lra).
  unfold point_line_distance, dist. cbn [fst snd].
  assert (Hlen : sqrt ((x - (x + H / sqrt 3)) ^ 2 + (y1 - y2) ^ 2)
                 = 2 * H / sqrt 3).
  { rewrite <- (diagonal_length H HH). f_equal.
    destruct Hy as [[-> ->]|[-> ->]]; ring. }
  rewrite Hlen.
  assert (Habs : Rabs ((x + H / sqrt 3 - x) * (y1 - y1)
                       - (y2 - y1) * (x + S / (sqrt 3 / 2) - x))
                 = H * (S / (sqrt 3 / 2))).
  { destruct Hy as [[-> ->]|[-> ->]].
    - rewrite Rabs_pos_eq; [ring|].
      replace ((x + H / sqrt 3 - x) * (H - H)
               - (0 - H) * (x + S / (sqrt 3 / 2) - x))
        with (H * (S / (sqrt 3 / 2))) by ring.
      apply Rmult_le_pos; lra.
    - rewrite Rabs_left; [ring|].
      replace ((x + H / sqrt 3 - x) * (0 - 0)
               - (H - 0) * (x + S / (sqrt 3 / 2) - x))
        with (- (H * (S / (sqrt 3 / 2)))) by ring.
      assert (0 < H * (S / (sqrt 3 / 2))) by (apply Rmult_lt_0_compat; lra).
      lra. }
  rewrite Habs. field. lra.
Qed.

(** X4. For a positive spacing, on an area of positive height, the isometric
    generator returns three families of lines: the horizontal lines of the
    square grid, then lines that rise to the right, then lines that fall to
    the right, the last two in equal number.  The [k]-th line of either
    diagonal family starts at [x = - H / sqrt 3 + k * S / (sqrt 3 / 2)] on
    one edge and ends [H / sqrt 3] further right on the other edge, so it
    makes 60 degrees with the horizontal, and two neighbours of a family are
    exactly one spacing apart, measured at right angles to them. *)
Theorem draw_iso_families (fuel : nat) (w h size line_width : R)
    (color : string) :
  0 < size -> 0 < h ->
  (enough_fuel iso (mm w) (mm h) (mm size) < fuel)%nat ->
  exists horizontals rising falling,
    draw_iso fuel w h size line_width color
    = Some (horizontals ++ rising ++ falling)
    /\ horizontals
       = horizontal_lines 0 (mm w) (mm h) (mm size) (mm line_width) color
    /\ List.length rising = List.length falling
    /\ (forall k, (k < List.length rising)%nat ->
          let x := - mm h / sqrt 3 + INR k * (mm size / (sqrt 3 / 2)) in
          nth_error rising k
          = Some (svg.Line x (mm h) (x + mm h / sqrt 3) 0 color
                    (mm line_width) None)
          /\ nth_error falling k
             = Some (svg.Line x 0 (x + mm h / sqrt 3) (mm h) color
                       (mm line_width) None)
          /\ point_line_distance (x + mm size / (sqrt 3 / 2), mm h)
               (x, mm h) (x + mm h / sqrt 3, 0) = mm size
          /\ point_line_distance (x + mm size / (sqrt 3 / 2), 0)
               (x, 0) (x + mm h / sqrt 3, mm h) = mm size)
    /\ (0 <= w ->
        nth_error rising 0
        = Some (svg.Line (- mm h / sqrt 3) (mm h) 0 0 color
                  (mm line_width) None)
        /\ nth_error falling 0
           = Some (svg.Line (- mm h / sqrt 3) 0 0 (mm h) color
                     (mm line_width) None)).
Proof.
  intros Hsize Hh Hfuel.
  assert (HS := mm_pos _ Hsize). assert (HH := mm_pos _ Hh).
  destruct sqrt_3_bounds as [Hr0 _].
  rewrite draw_iso_pattern by assumption.
  unfold iso_pattern. cbv zeta. rewrite radians_60, tan_PI3, sin_PI3.
  set (dx := mm size / (sqrt 3 / 2)).
  set (x0 := - mm h / sqrt 3).
  set (n := steps x0 (mm w) dx).
  eexists. eexists. eexists.
  split; [reflexivity|]. split; [reflexivity|]. split; [|split].
  - now rewrite !length_map.
  - rewrite length_map, points_length. intros k Hk.
    rewrite !nth_error_map, points_nth by exact Hk. cbn [option_map].
    split; [reflexivity|]. split; [reflexivity|].
    split; apply diagonal_distance; auto.
  - intros Hw. assert (HW := mm_nonneg _ Hw).
    assert (Hdx : 0 < dx) by (apply Rdiv_lt_0_compat; lra).
    assert (Hx0 : x0 + mm h / sqrt 3 = 0) by (unfold x0; field; lra).
    assert (Hneg : x0 <= 0).
    { assert (0 < mm h / sqrt 3) by (apply Rdiv_lt_0_compat; lra). lra. }
    assert (Hn : (0 < n)%nat).
    { apply steps_spec; [exact Hdx|]. simpl. lra. }
    rewrite !nth_error_map, points_nth by exact Hn. cbn [option_map INR].
    replace (x0 + 0 * dx) with x0 by ring. rewrite Hx0. now split.
Qed.

Lemma draw_iso_families_witness :
  exists horizontals rising falling,
    draw_iso (Datatypes.S (enough_fuel iso (mm 50.8) (mm 50.8) (mm 25.4)))
      50.8 50.8 25.4 0.254 "#cccccc"
    = Some (horizontals ++ rising ++ falling)
    /\ List.length rising = List.length falling.
Proof.
  assert (Hsize : 0 < 25.4) by lra.
  assert (Harea : 0 < 50.8) by lra.
  destruct (draw_iso_families
              (Datatypes.S (enough_fuel iso (mm 50.8) (mm 50.8) (mm 25.4)))
              50.8 50.8 25.4 0.254 "#cccccc" Hsize Harea
              (Nat.lt_succ_diag_r _))
    as (horizontals & rising & falling & Heq & _ & Hlen & _).
  exists horizontals, rising, falling. split; [exact Heq|exact Hlen].
Defined.

(** * The shape of the hexagons and how they fit *)

Lemma hex_vertex_values (s cx cy : R) :
  hex_vertex s cx cy 0 = (cx + s, cy)
  /\ hex_vertex s cx cy 1 = (cx + s / 2, cy + s * sqrt 3 / 2)
  /\ hex_vertex s cx cy 2 = (cx - s / 2, cy + s * sqrt 3 / 2)
  /\ hex_vertex s cx cy 3 = (cx - s, cy)
  /\ hex_vertex s cx cy 4 = (cx - s / 2, cy - s * sqrt 3 / 2)
  /\ hex_vertex s cx cy 5 = (cx + s / 2, cy - s * sqrt 3 / 2).
Proof.
  rewrite !hex_vertex_angle. cbn [INR].
  replace (0 * (PI / 3)) with 0 by ring.
  replace (1 * (PI / 3)) with (PI / 3) by ring.
  replace ((1 + 1) * (PI / 3)) with (2 * (PI / 3)) by ring.
  replace ((1 + 1 + 1) * (PI / 3)) with PI by field.
  replace ((1 + 1 + 1 + 1) * (PI / 3)) with (PI / 3 + PI) by field.
  replace ((1 + 1 + 1 + 1 + 1) * (PI / 3)) with (2 * (PI / 3) + PI) by field.
  rewrite !neg_cos, !neg_sin, cos_0, sin_0, cos_PI3, sin_PI3, cos_2PI3,
    sin_2PI3, cos_PI, sin_PI.
  repeat split; f_equal; field.
Qed.

(** X5. The hexagons are flat-topped: for a positive spacing [S] in document
    units, the subpath of the hexagon centred at [(cx, cy)] goes from the
    rightmost vertex [(cx + S, cy)] through the two lower vertices at
    [cy + S sqrt 3 / 2] (the vertical axis points down), the leftmost vertex
    [(cx - S, cy)] and the two upper vertices at [cy - S sqrt 3 / 2], so it
    has a horizontal side above and below, is [2 S] wide and [S sqrt 3]
    high. *)
Theorem draw_hex_flat_top (fuel : nat) (w h size line_width : R)
    (color : string) :
  0 < size ->
  (enough_fuel hex (mm w) (mm h) (mm size) < fuel)%nat ->
  exists centers : list (R * R),
    draw_hex fuel w h size line_width color
    = Some [svg.Path
              (flat_map
                 (fun '(cx, cy) =>
                    [ svg.M (cx + mm size) cy;
                      svg.L (cx + mm size / 2) (cy + mm size * sqrt 3 / 2);
                      svg.L (cx - mm size / 2) (cy + mm size * sqrt 3 / 2);
                      svg.L (cx - mm size) cy;
                      svg.L (cx - mm size / 2) (cy - mm size * sqrt 3 / 2);
                      svg.L (cx + mm size / 2) (cy - mm size * sqrt 3 / 2);
                      svg.Z ])
                 centers)
              color (mm line_width) "none"]
    /\ centers = hex_centers (mm w) (mm h) (mm size).
Proof.
  intros Hsize Hfuel. exists (hex_centers (mm w) (mm h) (mm size)).
  split; [|reflexivity].
  rewrite draw_hex_pattern by assumption. unfold hex_pattern.
  do 3 f_equal. apply flat_map_ext. intros [cx cy]. cbn [fst snd].
  rewrite hexagon_commands. unfold move_to, line_to.
  destruct (hex_vertex_values (mm size) cx cy)
    as (-> & -> & -> & -> & -> & ->).
  reflexivity.
Qed.

Lemma draw_hex_flat_top_witness :
  exists centers : list (R * R),
    draw_hex (Datatypes.S (enough_fuel hex (mm 0) (mm 0) (mm 25.4)))
      0 0 25.4 0.254 "#cccccc"
    = Some [svg.Path
              (flat_map
                 (fun '(cx, cy) =>
                    [ svg.M (cx + mm 25.4) cy;
                      svg.L (cx + mm 25.4 / 2) (cy + mm 25.4 * sqrt 3 / 2);
                      svg.L (cx - mm 25.4 / 2) (cy + mm 25.4 * sqrt 3 / 2);
                      svg.L (cx - mm 25.4) cy;
                      svg.L (cx - mm 25.4 / 2) (cy - mm 25.4 * sqrt 3 / 2);
                      svg.L (cx + mm 25.4 / 2) (cy - mm 25.4 * sqrt 3 / 2);
                      svg.Z ])
                 centers)
              "#cccccc" (mm 0.254) "none"]
    /\ centers = [(0, 0)].
Proof.
  assert (Hsize : 0 < 25.4) by lra.
  destruct (draw_hex_flat_top
              (Datatypes.S (enough_fuel hex (mm 0) (mm 0) (mm 25.4)))
              0 0 25.4 0.254 "#cccccc" Hsize (Nat.lt_succ_diag_r _))
    as (centers & Heq & Hc).
  exists centers. split; [exact Heq|].
  rewrite Hc, mm_0. apply hex_centers_origin, mm_pos, Hsize.
Defined.

Lemma truthy_succ (col : nat) :
  truthy ((col + 1) mod 2) = negb (truthy (col mod 2)).
Proof.
  assert (H1 := Nat.div_mod_eq col 2).
  assert (H2 := Nat.div_mod_eq (col + 1) 2).
  assert (B1 := Nat.mod_upper_bound col 2 ltac:(lia)).
  assert (B2 := Nat.mod_upper_bound (col + 1) 2 ltac:(lia)).
  unfold truthy.
  destruct (col mod 2) as [|[|?]], ((col + 1) mod 2) as [|[|?]];
    simpl; try reflexivity; lia.
Qed.

(** The centre of the hexagon in row [j] of column [col]. *)
Lemma hex_column_nth (H S : R) (col j : nat) (c : R * R) :
  nth_error (hex_column H S col) j = Some c ->
  c = (INR col * (S * 2 * 0.75),
       (if truthy (col mod 2) then S * sqrt 3 / 2 else 0)
       + INR j * (S * sqrt 3)).
Proof.
  unfold hex_column. cbv zeta. rewrite nth_error_map.
  set (cy0 := if truthy (col mod 2) then S * sqrt 3 / 2 else 0).
  set (n := steps cy0 (H + S * sqrt 3 / 2) (S * sqrt 3)).
  destruct (Nat.lt_ge_cases j n) as [Hj|Hj].
  - rewrite points_nth by exact Hj. simpl. now intros [= <-].
  - assert (Hnone : nth_error (points cy0 (S * sqrt 3) n) j = None).
    { apply nth_error_None. now rewrite points_length. }
    rewrite Hnone. discriminate.
Qed.

(** X6. The hexagons fit together without gaps: a hexagon and the next one
    below it in its column have a side in common, and so have a hexagon and
    the hexagon of the same row in the next column, which lies half a row
    lower when the first column is even and half a row higher when it is
    odd.  The columns are [1.5 S] apart and the rows [S sqrt 3]. *)
Theorem draw_hex_tessellation (fuel : nat) (w h size line_width : R)
    (color : string) :
  0 < size ->
  (enough_fuel hex (mm w) (mm h) (mm size) < fuel)%nat ->
  let v := fun (c : R * R) => hex_vertex (mm size) (fst c) (snd c) in
  draw_hex fuel w h size line_width color
  = Some [svg.Path
            (flat_map (fun c => hexagon (mm size) (fst c) (snd c))
               (flat_map (hex_column (mm h) (mm size))
                  (seq 0 (steps 0 (mm w + mm size) (mm size * 2 * 0.75)))))
            color (mm line_width) "none"]
  /\ forall col j c,
       nth_error (hex_column (mm h) (mm size) col) j = Some c ->
       c = (INR col * (1.5 * mm size),
            (if truthy (col mod 2) then mm size * sqrt 3 / 2 else 0)
            + INR j * (mm size * sqrt 3))
       /\ (forall c',
             nth_error (hex_column (mm h) (mm size) col) (j + 1) = Some c' ->
             v c' 5%nat = v c 1%nat /\ v c' 4%nat = v c 2%nat)
       /\ (forall c',
             nth_error (hex_column (mm h) (mm size) (col + 1)) j = Some c' ->
             if truthy (col mod 2)
             then v c' 2%nat = v c 0%nat /\ v c' 3%nat = v c 5%nat
             else v c' 3%nat = v c 1%nat /\ v c' 4%nat = v c 0%nat).
Proof.
  intros Hsize Hfuel v. split.
  - rewrite draw_hex_pattern by assumption. reflexivity.
  - intros col j c Hc. apply hex_column_nth in Hc. split; [|split].
    + rewrite Hc. do 2 f_equal. lra.
    + intros c' Hc'. apply hex_column_nth in Hc'. subst c c'. unfold v.
      cbn [fst snd]. rewrite plus_INR. cbn [INR].
      repeat match goal with
             | |- context [hex_vertex ?s ?x ?y _] =>
                 destruct (hex_vertex_values s x y)
                   as (E0 & E1 & E2 & E3 & E4 & E5);
                 rewrite ?E0, ?E1, ?E2, ?E3, ?E4, ?E5;
                 clear E0 E1 E2 E3 E4 E5
             end.
      split; f_equal; lra.
    + intros c' Hc'. apply hex_column_nth in Hc'. subst c c'. unfold v.
      cbn [fst snd]. rewrite truthy_succ, plus_INR. cbn [INR].
      repeat match goal with
             | |- context [hex_vertex ?s ?x ?y _] =>
                 destruct (hex_vertex_values s x y)
                   as (E0 & E1 & E2 & E3 & E4 & E5);
                 rewrite ?E0, ?E1, ?E2, ?E3, ?E4, ?E5;
                 clear E0 E1 E2 E3 E4 E5
             end.
      destruct (truthy (col mod 2)); cbn [negb]; split; f_equal; lra.
Qed.

Lemma draw_hex_tessellation_witness :
  draw_hex (Datatypes.S (enough_fuel hex (mm 100) (mm 100) (mm 5)))
    100 100 5 0.3 "#cccccc"
  = Some [svg.Path
            (flat_map (fun c => hexagon (mm 5) (fst c) (snd c))
               (flat_map (hex_column (mm 100) (mm 5))
                  (seq 0 (steps 0 (mm 100 + mm 5) (mm 5 * 2 * 0.75)))))
            "#cccccc" (mm 0.3) "none"].
Proof.
  assert (Hsize : 0 < 5) by lra.
  exact (proj1 (draw_hex_tessellation
                  (Datatypes.S (enough_fuel hex (mm 100) (mm 100) (mm 5)))
                  100 100 5 0.3 "#cccccc" Hsize (Nat.lt_succ_diag_r _))).
Defined.

(** * Page size, panels and clips *)

(** X7. Every assembled page is 612 by 792 units in portrait and 792 by 612
    units in landscape, whatever the pattern, the spacing, the layout and the
    margin, and its view box is the whole page from the origin. *)
Theorem make_page_size (fuel : nat) (args : Args) (doc : svg.SVG) :
  make_page fuel args = Some doc ->
  (svg.width doc, svg.height doc)
  = match orientation args with
    | portrait => (612, 792)
    | landscape => (792, 612)
    end
  /\ svg.viewBox doc
     = svg.mkViewBoxSpec 0 0 (svg.width doc) (svg.height doc).
Proof.
  intros Hdoc. rewrite make_page_eq in Hdoc.
  destruct (DRAW_FNS _ _ _ _ _ _ _) as [pattern_elements|]; [|discriminate].
  injection Hdoc as <-. unfold page_document, page_size_mm.
  destruct (inner_size_mm args) as [inner_w inner_h].
  destruct (orientation args); cbn [svg.width svg.height svg.viewBox];
    rewrite mm_PAGE_W_MM, mm_PAGE_H_MM; split; reflexivity.
Qed.

Lemma landscape_fuel_example :
  make_page
    (Datatypes.S (page_fuel (mkArgs dots 5 0.3 "#cccccc" landscape half 10
                               "output.svg")))
    (mkArgs dots 5 0.3 "#cccccc" landscape half 10 "output.svg")
  <> None.
Proof.
  rewrite make_page_total; [discriminate|simpl; lra|lia].
Qed.

Lemma make_page_size_witness :
  exists doc,
    make_page
      (Datatypes.S (page_fuel (mkArgs dots 5 0.3 "#cccccc" landscape half 10
                                 "output.svg")))
      (mkArgs dots 5 0.3 "#cccccc" landscape half 10 "output.svg")
    = Some doc
    /\ (svg.width doc, svg.height doc) = (792, 612).
Proof.
  destruct (make_page _ _) as [doc|] eqn:Hdoc;
    [|exfalso; exact (landscape_fuel_example Hdoc)].
  exists doc. split; [reflexivity|].
  exact (proj1 (make_page_size _ _ doc Hdoc)).
Defined.

(** X8. When the margin is not negative and leaves an inner area that is not
    negative, the clip rectangles of the panels of an assembled page, one for
    each panel, lie on the page at least one margin away from its four edges,
    and any two of them are at least two margins apart, horizontally or
    vertically: nothing that a panel draws can reach another panel or the
    margin around it. *)
Theorem make_page_clip_boxes (fuel : nat) (args : Args) (doc : svg.SVG) :
  make_page fuel args = Some doc ->
  0 <= margin args ->
  0 <= fst (inner_size_mm args) ->
  0 <= snd (inner_size_mm args) ->
  let boxes := clip_boxes (svg.elements doc) in
  List.length boxes = panel_count (layout args)
  /\ Forall
       (fun '(x1, y1, x2, y2) =>
          mm (margin args) <= x1 /\ x1 <= x2
          /\ x2 <= svg.width doc - mm (margin args)
          /\ mm (margin args) <= y1 /\ y1 <= y2
          /\ y2 <= svg.height doc - mm (margin args)
          /\ x2 - x1 = mm (fst (inner_size_mm args))
          /\ y2 - y1 = mm (snd (inner_size_mm args)))
       boxes
  /\ ForallOrdPairs
       (fun '(_, _, x2, y2) '(x1', y1', _, _) =>
          x2 + 2 * mm (margin args) <= x1'
          \/ y2 + 2 * mm (margin args) <= y1')
       boxes.
Proof.
  intros Hdoc Hm Hw Hh. rewrite make_page_eq in Hdoc.
  destruct (DRAW_FNS _ _ _ _ _ _ _) as [pattern_elements|]; [|discriminate].
  injection Hdoc as <-. revert Hw Hh.
  unfold page_document, inner_size_mm, page_size_mm.
  assert (Hmm : forall v, mm v = v * 72 / 25.4).
  { intros v. unfold mm, MM_PER_PT. field. lra. }
  destruct (orientation args), (layout args);
    cbn [panel_size_mm panel_offsets fst snd svg.elements svg.width
         svg.height enumerate List.length seq combine map app
         fold_lines_of panel_group clip_boxes flat_map clip_box];
    intros Hw Hh; rewrite !Hmm; unfold PAGE_W_MM, PAGE_H_MM in *;
    (split; [reflexivity|]);
    (split;
     [ repeat (constructor; [repeat split; lra|]); constructor
     | repeat (constructor;
               [repeat (constructor; [(left; lra) || (right; lra)|]);
                constructor|]);
       constructor ]).
Qed.

Lemma make_page_clip_boxes_witness :
  exists doc,
    make_page
      (Datatypes.S (page_fuel (mkArgs dots 5 0.3 "#cccccc" landscape half 10
                                 "output.svg")))
      (mkArgs dots 5 0.3 "#cccccc" landscape half 10 "output.svg")
    = Some doc
    /\ List.length (clip_boxes (svg.elements doc)) = 2%nat.
Proof.
  destruct (make_page _ _) as [doc|] eqn:Hdoc;
    [|exfalso; exact (landscape_fuel_example Hdoc)].
  exists doc. split; [reflexivity|].
  refine (proj1 (make_page_clip_boxes _ _ doc Hdoc _ _ _));
    cbv [inner_size_mm page_size_mm panel_size_mm orientation layout margin
         fst snd PAGE_W_MM PAGE_H_MM]; lra.
Defined.

(** X9. The panels of an assembled page define the clip paths clip-0, clip-1,
    ... in this order, one for each panel, so no two panels share a clip
    identifier; and the pattern of each panel refers to the clip path that
    its own panel defines. *)
Theorem make_page_clip_ids (fuel : nat) (args : Args) (doc : svg.SVG) :
  make_page fuel args = Some doc ->
  clip_ids (svg.elements doc)
  = firstn (panel_count (layout args))
      ["clip-0"; "clip-1"; "clip-2"; "clip-3"]%string
  /\ NoDup (clip_ids (svg.elements doc))
  /\ Forall
       (fun e =>
          forall id, clip_id_of e = Some id ->
                     clip_ref_of e = Some ("url(#" ++ id ++ ")")%string)
       (svg.elements doc).
Proof.
  intros Hdoc. rewrite make_page_eq in Hdoc.
  destruct (DRAW_FNS _ _ _ _ _ _ _) as [pattern_elements|]; [|discriminate].
  injection Hdoc as <-.
  unfold page_document.
  destruct (page_size_mm (orientation args)) as [page_w_mm page_h_mm].
  destruct (inner_size_mm args) as [inner_w inner_h].
  destruct (layout args);
    cbn [panel_offsets svg.elements enumerate List.length seq combine map app
         fold_lines_of panel_group clip_ids flat_map clip_id_of panel_count
         firstn];
    (split; [reflexivity|]);
    (split;
     [ repeat (constructor; [simpl; intuition discriminate|]); constructor
     | repeat (constructor;
               [intros id Hid; simpl in Hid; try discriminate;
                injection Hid as <-; reflexivity|]);
       constructor ]).
Qed.

Lemma make_page_clip_ids_witness :
  exists doc,
    make_page
      (Datatypes.S (page_fuel (mkArgs dots 5 0.3 "#cccccc" landscape half 10
                                 "output.svg")))
      (mkArgs dots 5 0.3 "#cccccc" landscape half 10 "output.svg")
    = Some doc
    /\ clip_ids (svg.elements doc) = ["clip-0"; "clip-1"]%string.
Proof.
  destruct (make_page _ _) as [doc|] eqn:Hdoc;
    [|exfalso; exact (landscape_fuel_example Hdoc)].
  exists doc. split; [reflexivity|].
  exact (proj1 (make_page_clip_ids _ _ doc Hdoc)).
Defined.

(** * More on the colour *)

(** X10. Normalising a colour twice is the same as normalising it once, and
    the result is either the colour itself or the colour with one '#' in
    front; in the second case the colour did not start with '#'. *)
Theorem normalize_color_idempotent (c : string) :
  normalize_color (normalize_color c) = normalize_color c
  /\ (normalize_color c = c
      \/ (normalize_color c = ("#" ++ c)%string /\ startswith c "#" = false)).
Proof.
  assert (Hcases :
    normalize_color c = c
    \/ (normalize_color c = ("#" ++ c)%string /\ startswith c "#" = false)).
  { unfold normalize_color.
    destruct (startswith c "#"); cbn [negb andb]; [left; reflexivity|].
    destruct (forallb is_hex_char (list_ascii_of_string c)
              && existsb (Nat.eqb (String.length c)) [3; 6; 8]%nat)%bool;
      [right; split; reflexivity|left; reflexivity]. }
  split; [|exact Hcases].
  destruct Hcases as [H|[H _]]; rewrite H; [exact H|].
  unfold normalize_color.
  replace (startswith ("#" ++ c) "#") with true by (destruct c; reflexivity).
  reflexivity.
Qed.

(** * Spacings and areas outside the expected range *)

Lemma mm_nonpos (v : R) : v <= 0 -> mm v <= 0.
Proof. intros H. unfold mm, MM_PER_PT. lra. Qed.

Lemma mm_opp (v : R) : mm (- v) = - mm v.
Proof. unfold mm, MM_PER_PT. field. lra. Qed.

Lemma mm_le (a b : R) : a <= b -> mm a <= mm b.
Proof. intros H. unfold mm, MM_PER_PT. lra. Qed.

(** X11. A spacing that is zero or negative makes every generator loop for
    ever on an area that is not negative (for the hexagons, on an area at
    least as wide as the spacing is long): no amount of fuel gives a
    result.  The generators do not check the spacing. *)
Theorem nonpositive_spacing_never_returns (t : pattern_type) (fuel : nat)
    (w h size line_width : R) (color : string) :
  size <= 0 -> 0 <= w -> 0 <= h ->
  (t = hex -> - size <= w) ->
  DRAW_FNS t fuel w h size line_width color = None.
Proof.
  intros Hsize Hw Hh Hhex.
  assert (HS := mm_nonpos _ Hsize).
  assert (HW := mm_nonneg _ Hw). assert (HH := mm_nonneg _ Hh).
  destruct t; cbn [DRAW_FNS].
  - now apply draw_grid_diverges.
  - unfold draw_dots.
    rewrite (while_diverges _ _ (fun s : list svg.Element * R => snd s <= 0)).
    + reflexivity.
    + intros [els x] Hx. simpl in Hx. apply Rleb_true. lra.
    + intros [els x] [els' x'] Hx Hb. simpl in Hx.
      destruct (while fuel _ _ (els, 0)) as [[els1 y1]|]; simpl in Hb;
        [|discriminate].
      injection Hb as _ <-. simpl. lra.
    + simpl. lra.
  - unfold draw_hex.
    assert (Hsw : - mm size <= mm w).
    { rewrite <- mm_opp. apply mm_le, Hhex. reflexivity. }
    rewrite (while_diverges _ _
               (fun s : list svg.PathData * nat * R => snd s <= 0)).
    + reflexivity.
    + intros [[pd col] cx] Hx. simpl in Hx. apply Rleb_true. lra.
    + intros [[pd col] cx] [[pd' col'] cx'] Hx Hb. simpl in Hx.
      destruct (while fuel _ _ (pd, _)) as [[pd1 y1]|]; simpl in Hb;
        [|discriminate].
      injection Hb as _ _ <-. simpl. lra.
    + simpl. lra.
  - unfold draw_lined.
    rewrite (while_diverges _ _ (fun s : list svg.Element * R => snd s <= 0)).
    + reflexivity.
    + intros [els y] Hy. simpl in Hy. apply Rleb_true. lra.
    + intros [els y] [els' y'] Hy Hb. injection Hb as _ <-. simpl in *. lra.
    + simpl. lra.
  - unfold draw_iso.
    rewrite (while_diverges _ _ (fun s : list svg.Element * R => snd s <= 0)).
    + reflexivity.
    + intros [els y] Hy. simpl in Hy. apply Rleb_true. lra.
    + intros [els y] [els' y'] Hy Hb. injection Hb as _ <-. simpl in *. lra.
    + simpl. lra.
Qed.

Lemma nonpositive_spacing_never_returns_witness :
  draw_hex 1000 100 100 0 0.3 "#cccccc" = None.
Proof.
  apply (nonpositive_spacing_never_returns hex 1000 100 100 0 0.3 "#cccccc");
    try lra; intros _; lra.
Defined.

(** X12. With a spacing that is zero or negative, the page of a configuration
    whose panels have an inner area that is not negative (and, for the
    hexagons, at least as wide as the spacing is long) is never assembled. *)
Theorem nonpositive_spacing_no_page (fuel : nat) (args : Args) :
  size args <= 0 ->
  0 <= fst (inner_size_mm args) ->
  0 <= snd (inner_size_mm args) ->
  (type args = hex -> - size args <= fst (inner_size_mm args)) ->
  make_page fuel args = None.
Proof.
  intros Hsize Hw Hh Hhex. rewrite make_page_eq.
  now rewrite nonpositive_spacing_never_returns.
Qed.

Lemma nonpositive_spacing_no_page_witness :
  make_page 1000 (mkArgs grid 0 0.3 "#cccccc" portrait full 10 "output.svg")
  = None.
Proof.
  apply nonpositive_spacing_no_page;
    cbv [inner_size_mm page_size_mm panel_size_mm orientation layout margin
         size type fst snd PAGE_W_MM PAGE_H_MM]; try lra; discriminate.
Defined.

Lemma while_exit {S : Type} (cond : S -> bool) (body : S -> option S)
    (fuel : nat) (s : S) :
  (0 < fuel)%nat -> cond s = false -> while fuel cond body s = Some s.
Proof.
  intros Hfuel Hcond. destruct fuel as [|fuel]; [lia|].
  simpl. now rewrite Hcond.
Qed.

Lemma tan_60_pos : 0 < tan (radians 60).
Proof. rewrite radians_60, tan_PI3. apply sqrt_3_bounds. Qed.

(** X13. A generator whose loops are not entered returns at once, with any
    fuel that is not zero, draws nothing and reports nothing.  With [W], [H]
    and [S] the converted width, height and spacing, this is the case for the
    square grid when [W + 0.01 < 0] and [H + 0.01 < 0]; for the dots when
    [W + 0.01 < 0]; for the ruled lines when [H + 0.01 < S]; for the isometric
    grid when [H + 0.01 < 0] and [W < - H / tan 60]; these four return no
    element.  For the hexagons it is the case when [W + S < 0]; they return a
    single path without any command.  A margin wide enough makes the inner
    area that negative. *)
Theorem loops_not_entered_draw_nothing (t : pattern_type) (fuel : nat)
    (w h size line_width : R) (color : string) :
  (0 < fuel)%nat ->
  match t with
  | grid => mm w + 0.01 < 0 /\ mm h + 0.01 < 0
  | dots => mm w + 0.01 < 0
  | lined => mm h + 0.01 < mm size
  | hex => mm w + mm size < 0
  | iso => mm h + 0.01 < 0 /\ mm w < - mm h / tan (radians 60)
  end ->
  DRAW_FNS t fuel w h size line_width color
  = Some match t with
         | hex => [svg.Path [] color (mm line_width) "none"]
         | grid | dots | lined | iso => []
         end.
Proof.
  intros Hfuel Ht.
  destruct t; cbn [DRAW_FNS].
  - destruct Ht as [Hw Hh]. unfold draw_grid.
    rewrite while_exit; [|exact Hfuel|apply Rleb_false; lra]. cbn [bind].
    rewrite while_exit; [|exact Hfuel|apply Rleb_false; lra]. reflexivity.
  - unfold draw_dots.
    rewrite while_exit; [|exact Hfuel|apply Rleb_false; lra]. reflexivity.
  - unfold draw_hex.
    rewrite while_exit; [|exact Hfuel|apply Rleb_false; lra]. reflexivity.
  - unfold draw_lined.
    rewrite while_exit; [|exact Hfuel|apply Rleb_false; lra]. reflexivity.
  - destruct Ht as [Hh Hw]. unfold draw_iso.
    rewrite while_exit; [|exact Hfuel|apply Rleb_false; lra]. cbn [bind].
    rewrite while_exit; [|exact Hfuel|apply Rleb_false; lra]. cbn [bind].
    rewrite while_exit; [|exact Hfuel|apply Rleb_false; lra]. reflexivity.
Qed.

Lemma loops_not_entered_draw_nothing_witness :
  draw_hex 1 (-100) (-100) 5 0.3 "#cccccc"
  = Some [svg.Path [] "#cccccc" (mm 0.3) "none"].
Proof.
  apply (loops_not_entered_draw_nothing hex 1 (-100) (-100) 5 0.3 "#cccccc");
    [lia|unfold mm, MM_PER_PT; lra].
Defined.

(** * Finding the cairo library *)

Lemma prefix_app (d x : string) : String.prefix d (d ++ x) = true.
Proof.
  induction d as [|a d IH]; simpl.
  - now destruct x.
  - destruct (ascii_dec a a) as [_|Hne]; [exact IH|contradiction].
Qed.

Lemma contains_app (d x : string) : contains d (d ++ x) = true.
Proof.
  unfold contains. destruct (d ++ x)%string as [|c rest] eqn:E.
  - destruct d; [reflexivity|discriminate].
  - assert (Hp : String.prefix d (String c rest) = true).
    { rewrite <- E. apply prefix_app. }
    cbn [String.index]. now rewrite Hp.
Qed.

Lemma append_empty (d : string) : (d ++ "")%string = d.
Proof. induction d as [|a d IH]; simpl; [reflexivity|now rewrite IH]. Qed.

Lemma contains_self (d : string) : contains d d = true.
Proof. rewrite <- (append_empty d) at 2. apply contains_app. Qed.

Lemma probe_dirs_None (sys : System) (environ : Environ)
    (dirs : list string) :
  probe_dirs sys environ dirs = None
  <-> forall d lib, In d dirs -> In lib lib_names ->
                    isfile sys (path_join sys d lib) = false.
Proof.
  induction dirs as [|d dirs IH]; cbn [probe_dirs].
  - split; [intros _ d lib []|reflexivity].
  - destruct (existsb (fun lib => isfile sys (path_join sys d lib)) lib_names)
      eqn:E.
    + split; [discriminate|]. intros H. exfalso.
      apply existsb_exists in E. destruct E as [lib [Hlib Hfile]].
      rewrite (H d lib (or_introl eq_refl) Hlib) in Hfile. discriminate.
    + rewrite IH. split.
      * intros H d' lib [<-|Hd'] Hlib; [|now apply H].
        destruct (isfile sys (path_join sys d lib)) eqn:F; [|reflexivity].
        assert (Hex : existsb (fun lib => isfile sys (path_join sys d lib))
                        lib_names = true).
        { apply existsb_exists. exists lib. now split. }
        rewrite Hex in E. discriminate.
      * intros H d' lib Hd' Hlib. apply H; [right; exact Hd'|exact Hlib].
Qed.

(** X14. When ctypes finds the library the search returns and leaves the
    environment as it is.  Otherwise an exception of the call of brew other
    than the two that are caught leaves the function, whether the library is
    there or not; and the function raises its own [OSError] exactly when the
    call of brew raises no such exception and none of the four library names
    is a file in any of the searched directories; the message then lists the
    searched directories. *)
Theorem ensure_cairo_lib_raises (sys : System) (environ : Environ) :
  let found :=
    match find_library sys "cairo" with
    | Some name => negb (String.eqb name "")
    | None => false
    end in
  let brew := check_output sys ["brew"; "--prefix"; "cairo"]%string in
  let dirs := cairo_search_dirs sys environ in
  let nowhere :=
    forall d lib, In d dirs -> In lib lib_names ->
                  isfile sys (path_join sys d lib) = false in
  (found = true -> _ensure_cairo_lib sys environ = Returned environ)
  /\ (forall exception,
        found = false -> brew = Escaped exception ->
        _ensure_cairo_lib sys environ = Propagated exception)
  /\ (forall message,
        _ensure_cairo_lib sys environ = RaisedOSError message
        <-> found = false
            /\ (forall exception, brew <> Escaped exception)
            /\ nowhere
            /\ message
               = ("libcairo was not found in any standard location. Searched: "
                  ++ String.concat ", " dirs)%string).
Proof.
  cbv zeta. unfold _ensure_cairo_lib, str_truthy.
  destruct (match find_library sys "cairo" with
            | Some name => negb (String.eqb name "")
            | None => false
            end) eqn:Hfound.
  - split; [reflexivity|]. split; [discriminate|].
    intros message. split; [discriminate|intros [H _]; discriminate].
  - split; [discriminate|]. split.
    + intros exception _ ->. reflexivity.
    + intros message.
      destruct (check_output sys ["brew"; "--prefix"; "cairo"]%string)
        as [out| |exception] eqn:Hbrew.
      * destruct (probe_dirs sys environ (cairo_search_dirs sys environ))
          eqn:Hprobe.
        -- split; [discriminate|]. intros (_ & _ & Hno & _).
           rewrite (proj2 (probe_dirs_None _ _ _) Hno) in Hprobe.
           discriminate.
        -- split.
           ++ intros [= <-]. split; [reflexivity|].
              split; [discriminate|].
              split; [exact (proj1 (probe_dirs_None _ _ _) Hprobe)|].
              reflexivity.
           ++ intros (_ & _ & _ & ->). reflexivity.
      * destruct (probe_dirs sys environ (cairo_search_dirs sys environ))
          eqn:Hprobe.
        -- split; [discriminate|]. intros (_ & _ & Hno & _).
           rewrite (proj2 (probe_dirs_None _ _ _) Hno) in Hprobe.
           discriminate.
        -- split.
           ++ intros [= <-]. split; [reflexivity|].
              split; [discriminate|].
              split; [exact (proj1 (probe_dirs_None _ _ _) Hprobe)|].
              reflexivity.
           ++ intros (_ & _ & _ & ->). reflexivity.
      * split; [discriminate|]. intros (_ & Hesc & _).
        exfalso. exact (Hesc exception eq_refl).
Qed.

Lemma probe_dirs_Some (sys : System) (environ environ' : Environ)
    (dirs : list string) :
  probe_dirs sys environ dirs = Some environ' ->
  exists before d after,
    dirs = before ++ d :: after
    /\ (forall d' lib, In d' before -> In lib lib_names ->
                       isfile sys (path_join sys d' lib) = false)
    /\ (exists lib, In lib lib_names
                    /\ isfile sys (path_join sys d lib) = true)
    /\ environ'
       = if negb (contains d (environ_get environ "DYLD_LIBRARY_PATH" ""))
         then environ_set environ "DYLD_LIBRARY_PATH"
                (if str_truthy (environ_get environ "DYLD_LIBRARY_PATH" "")
                 then (d ++ ":" ++ environ_get environ "DYLD_LIBRARY_PATH" "")
                        %string
                 else d)
         else environ.
Proof.
  induction dirs as [|d dirs IH]; cbn [probe_dirs]; [discriminate|].
  destruct (existsb (fun lib => isfile sys (path_join sys d lib)) lib_names)
    eqn:E.
  - intros [= <-]. exists [], d, dirs. split; [reflexivity|].
    split; [intros d' lib []|]. split; [|reflexivity].
    apply existsb_exists in E. exact E.
  - intros H. destruct (IH H) as (before & d0 & after & -> & Hb & Hd & He).
    exists (d :: before), d0, after. split; [reflexivity|].
    split; [|split; assumption].
    intros d' lib [<-|Hd'] Hlib; [|now apply Hb].
    destruct (isfile sys (path_join sys d lib)) eqn:F; [|reflexivity].
    assert (Hex : existsb (fun lib => isfile sys (path_join sys d lib))
                    lib_names = true).
    { apply existsb_exists. exists lib. now split. }
    rewrite Hex in E. discriminate.
Qed.

(** X15. When the search returns, the environment is as before except,
    possibly, for [DYLD_LIBRARY_PATH].  That variable changes only if ctypes
    did not find the library: the first searched directory that holds one of
    the library names is then put in front of the old value, with a colon in
    between unless the old value is empty or missing, and this only when the
    directory does not occur in the old value. *)
Theorem ensure_cairo_lib_environ (sys : System) (environ environ' : Environ) :
  _ensure_cairo_lib sys environ = Returned environ' ->
  (forall k, k <> "DYLD_LIBRARY_PATH"%string -> environ' k = environ k)
  /\ (environ' = environ
      \/ exists before d after,
           cairo_search_dirs sys environ = before ++ d :: after
           /\ (forall d' lib, In d' before -> In lib lib_names ->
                              isfile sys (path_join sys d' lib) = false)
           /\ (exists lib, In lib lib_names
                           /\ isfile sys (path_join sys d lib) = true)
           /\ contains d (environ_get environ "DYLD_LIBRARY_PATH" "") = false
           /\ environ' "DYLD_LIBRARY_PATH"%string
              = Some match environ "DYLD_LIBRARY_PATH"%string with
                     | Some EmptyString | None => d
                     | Some existing => (d ++ ":" ++ existing)%string
                     end).
Proof.
  unfold _ensure_cairo_lib.
  destruct (match find_library sys "cairo" with
            | Some name => str_truthy name
            | None => false
            end).
  - intros [= <-]. split; [reflexivity|left; reflexivity].
  - assert (Hret :
      match probe_dirs sys environ (cairo_search_dirs sys environ) with
      | Some environ1 => Returned environ1
      | None =>
          RaisedOSError
            ("libcairo was not found in any standard location. "
             ++ "Searched: "
             ++ String.concat ", " (cairo_search_dirs sys environ))%string
      end = Returned environ' ->
      probe_dirs sys environ (cairo_search_dirs sys environ) = Some environ').
    { destruct (probe_dirs sys environ (cairo_search_dirs sys environ));
        [now intros [= ->]|discriminate]. }
    intros Hrun.
    assert (Hprobe : probe_dirs sys environ (cairo_search_dirs sys environ)
                     = Some environ').
    { destruct (check_output sys ["brew"; "--prefix"; "cairo"]%string);
        [exact (Hret Hrun)|exact (Hret Hrun)|discriminate]. }
    clear Hrun Hret.
    destruct (probe_dirs_Some _ _ _ _ Hprobe)
      as (before & d & after & Hdirs & Hb & Hd & He).
    destruct (contains d (environ_get environ "DYLD_LIBRARY_PATH" ""))
      eqn:Hc; cbn [negb] in He.
    + subst environ'. split; [reflexivity|left; reflexivity].
    + split.
      * intros k Hk. rewrite He. unfold environ_set.
        apply String.eqb_neq in Hk. now rewrite Hk.
      * right. exists before, d, after.
        repeat (split; [assumption|]).
        rewrite He. unfold environ_set, environ_get, str_truthy.
        rewrite String.eqb_refl.
        destruct (environ "DYLD_LIBRARY_PATH"%string) as [[|c rest]|];
          reflexivity.
Qed.

Lemma cairo_search_dirs_ext (sys : System) (environ environ' : Environ) :
  environ' "CONDA_PREFIX"%string = environ "CONDA_PREFIX"%string ->
  cairo_search_dirs sys environ' = cairo_search_dirs sys environ.
Proof. intros H. unfold cairo_search_dirs. now rewrite H. Qed.

Lemma probe_dirs_again (sys : System) (environ environ' : Environ)
    (dirs : list string) :
  probe_dirs sys environ dirs = Some environ' ->
  probe_dirs sys environ' dirs = Some environ'.
Proof.
  induction dirs as [|d dirs IH]; cbn [probe_dirs]; [discriminate|].
  destruct (existsb (fun lib => isfile sys (path_join sys d lib)) lib_names);
    [|exact IH].
  destruct (contains d (environ_get environ "DYLD_LIBRARY_PATH" "")) eqn:Hc;
    cbn [negb]; intros [= <-].
  - now rewrite Hc.
  - assert (Hnew : forall v,
              environ_get (environ_set environ "DYLD_LIBRARY_PATH" v)
                "DYLD_LIBRARY_PATH" "" = v).
    { intros v. unfold environ_get, environ_set.
      now rewrite String.eqb_refl. }
    rewrite Hnew.
    destruct (str_truthy (environ_get environ "DYLD_LIBRARY_PATH" ""));
      [rewrite contains_app|rewrite contains_self]; reflexivity.
Qed.

(** X16. The search can be repeated: run again in the environment that it
    returned, it returns that environment unchanged, so a directory is never
    put in front of [DYLD_LIBRARY_PATH] twice. *)
Theorem ensure_cairo_lib_idempotent (sys : System)
    (environ environ' : Environ) :
  _ensure_cairo_lib sys environ = Returned environ' ->
  _ensure_cairo_lib sys environ' = Returned environ'.
Proof.
  unfold _ensure_cairo_lib.
  destruct (match find_library sys "cairo" with
            | Some name => str_truthy name
            | None => false
            end); [intros [= <-]; reflexivity|].
  destruct (check_output sys ["brew"; "--prefix"; "cairo"]%string);
    [| |discriminate].
  all: destruct (probe_dirs sys environ (cairo_search_dirs sys environ))
         as [env1|] eqn:Hprobe; [|discriminate].
  all: intros [= <-].
  all: assert (Hconda : env1 "CONDA_PREFIX"%string
                        = environ "CONDA_PREFIX"%string)
         by (destruct (probe_dirs_Some _ _ _ _ Hprobe)
               as (_ & d & _ & _ & _ & _ & ->);
             destruct (negb _); reflexivity).
  all: rewrite (cairo_search_dirs_ext _ _ _ Hconda).
  all: now rewrite (probe_dirs_again _ _ _ _ Hprobe).
Qed.

Lemma example_system_returns :
  _ensure_cairo_lib (example_system true) empty_environ
  = Returned (environ_set empty_environ "DYLD_LIBRARY_PATH" "/usr/local/lib").
Proof. reflexivity. Qed.

Lemma ensure_cairo_lib_raises_witness :
  _ensure_cairo_lib (example_system false) empty_environ
  = RaisedOSError
      ("libcairo was not found in any standard location. Searched: "
       ++ "/opt/homebrew/lib, /usr/local/lib, /home/user/miniconda3/lib, "
       ++ "/home/user/miniforge3/lib, /home/user/anaconda3/lib").
Proof.
  apply (proj2 (proj2 (ensure_cairo_lib_raises (example_system false)
                         empty_environ))).
  split; [reflexivity|]. split; [discriminate|]. split; [|reflexivity].
  intros d lib _ _. reflexivity.
Defined.

Lemma ensure_cairo_lib_environ_witness :
  exists environ',
    _ensure_cairo_lib (example_system true) empty_environ = Returned environ'
    /\ (forall k, k <> "DYLD_LIBRARY_PATH"%string ->
                  environ' k = empty_environ k).
Proof.
  eexists. split; [exact example_system_returns|].
  exact (proj1 (ensure_cairo_lib_environ _ _ _ example_system_returns)).
Defined.

Lemma ensure_cairo_lib_idempotent_witness :
  _ensure_cairo_lib (example_system true)
    (environ_set empty_environ "DYLD_LIBRARY_PATH" "/usr/local/lib")
  = Returned (environ_set empty_environ "DYLD_LIBRARY_PATH" "/usr/local/lib").
Proof.
  exact (ensure_cairo_lib_idempotent _ _ _ example_system_returns).
Defined.

(** * Colour and stroke width of the patterns *)

(** What holds before a loop and is kept by its body holds after it. *)
Lemma while_invariant {S : Type} (cond : S -> bool) (body : S -> option S)
    (Inv : S -> Prop) :
  (forall s s', Inv s -> body s = Some s' -> Inv s') ->
  forall (fuel : nat) (s r : S),
    Inv s -> while fuel cond body s = Some r -> Inv r.
Proof.
  intros Hbody. induction fuel as [|fuel IH]; intros s r Hs Hr.
  - discriminate.
  - simpl in Hr. destruct (cond s).
    + destruct (body s) as [s'|] eqn:Hb; simpl in Hr; [|discriminate].
      exact (IH s' r (Hbody s s' Hs Hb) Hr).
    + now injection Hr as <-.
Qed.

Lemma emit_loop_Forall {A : Type} (P : A -> Prop) (e : R -> A)
    (cond : list A * R -> bool) (step : R) (fuel : nat)
    (els0 els : list A) (x0 x : R) :
  (forall x, P (e x)) ->
  Forall P els0 ->
  while fuel cond (fun '(els, x) => Some (els ++ [e x], x + step)) (els0, x0)
  = Some (els, x) ->
  Forall P els.
Proof.
  intros He H0 Hw.
  apply (while_invariant cond _ (fun s => Forall P (fst s))) in Hw;
    [exact Hw| |exact H0].
  intros [a y] [a' y'] Ha [= <- _]. simpl in *.
  apply Forall_app. split; [exact Ha|]. constructor; [apply He|constructor].
Qed.

(** X17. Whatever a generator returns is drawn in the colour and with the
    line width that it was given: every line is stroked in that colour with
    the converted line width and is not dashed, every dot is filled in that
    colour and has the converted line width as its diameter, and the path of
    the hexagons is stroked in that colour with the converted line width and
    is not filled.  A generator returns nothing else than such elements. *)
Theorem generators_style (t : pattern_type) (fuel : nat)
    (w h size line_width : R) (color : string) (els : list svg.Element) :
  DRAW_FNS t fuel w h size line_width color = Some els ->
  Forall (has_style color (mm line_width)) els.
Proof.
  set (P := has_style color (mm line_width)).
  assert (Hline : forall x1 y1 x2 y2,
             P (svg.Line x1 y1 x2 y2 color (mm line_width) None)).
  { intros. repeat split. }
  destruct t; cbn [DRAW_FNS].
  - unfold draw_grid.
    destruct (while fuel _ _ ([], 0)) as [[els1 x1]|] eqn:H1;
      cbn [bind]; [|discriminate].
    destruct (while fuel _ _ (els1, 0)) as [[els2 x2]|] eqn:H2;
      cbn [bind]; [|discriminate].
    intros [= <-].
    apply emit_loop_Forall with (P := P) in H1; [|intros; apply Hline|constructor].
    apply emit_loop_Forall with (P := P) in H2; [exact H2|intros; apply Hline|exact H1].
  - unfold draw_dots.
    destruct (while fuel _ _ ([], 0)) as [[els1 x1]|] eqn:H1;
      cbn [bind]; [|discriminate].
    intros [= <-].
    apply (while_invariant _ _ (fun s => Forall P (fst s))) in H1;
      [exact H1| |constructor].
    intros [a x] [a' x'] Ha Hb. simpl in Ha.
    destruct (while fuel _ _ (a, 0)) as [[a1 y1]|] eqn:H2;
      cbn [bind] in Hb; [|discriminate].
    injection Hb as <- _. simpl.
    apply emit_loop_Forall with (P := P) in H2; [exact H2| |exact Ha].
    intros y. split; reflexivity.
  - unfold draw_hex.
    destruct (while fuel _ _ ([], 0%nat, 0)) as [[[pd col] cx]|];
      cbn [bind]; [|discriminate].
    intros [= <-]. constructor; [|constructor]. repeat split.
  - unfold draw_lined.
    destruct (while fuel _ _ ([], mm size)) as [[els1 y1]|] eqn:H1;
      cbn [bind]; [|discriminate].
    intros [= <-].
    apply emit_loop_Forall with (P := P) in H1;
      [exact H1|intros; apply Hline|constructor].
  - unfold draw_iso.
    destruct (while fuel _ _ ([], 0)) as [[els1 y1]|] eqn:H1;
      cbn [bind]; [|discriminate].
    destruct (while fuel _ _ (els1, _)) as [[els2 x2]|] eqn:H2;
      cbn [bind]; [|discriminate].
    destruct (while fuel _ _ (els2, _)) as [[els3 x3]|] eqn:H3;
      cbn [bind]; [|discriminate].
    intros [= <-].
    apply emit_loop_Forall with (P := P) in H1;
      [|intros; apply Hline|constructor].
    apply emit_loop_Forall with (P := P) in H2;
      [|intros; apply Hline|exact H1].
    apply emit_loop_Forall with (P := P) in H3;
      [exact H3|intros; apply Hline|exact H2].
Qed.

Lemma generators_style_witness :
  exists els,
    draw_grid 4 50.8 50.8 25.4 0.254 "#cccccc" = Some els
    /\ Forall (has_style "#cccccc" (mm 0.254)) els.
Proof.
  assert (Hrun : draw_grid 4 50.8 50.8 25.4 0.254 "#cccccc"
                 = Some (grid_pattern (mm 50.8) (mm 50.8) (mm 25.4) (mm 0.254)
                           "#cccccc")).
  { apply draw_grid_pattern; [lra|rewrite grid_fuel_example; lia]. }
  eexists. split; [exact Hrun|].
  exact (generators_style grid 4 50.8 50.8 25.4 0.254 "#cccccc" _ Hrun).
Defined.

(** * Termination with rounded arithmetic *)



Section RoundedLoops.
Variable rnd : R -> R.
Variable u : R.
Hypothesis u_range : 0 <= u <= 1 / 16.
Hypothesis rnd_error : forall x, Rabs (rnd x - x) <= u * Rabs x.








End RoundedLoops.

Section RoundedGenerators.
Variable rnd : R -> R.
Variables math_sqrt math_sin math_cos math_tan math_radians : R -> R.
Variable u : R.
Hypothesis u_range : 0 <= u <= 1 / 16.
Hypothesis rnd_error : forall x, Rabs (rnd x - x) <= u * Rabs x.
Hypothesis math_sqrt_3_pos : 0 < math_sqrt 3.
Hypothesis math_sin_60_pos : 0 < math_sin (math_radians 60).

Tactic Notation "loop_returns" constr(L) ident(r) ident(E) :=
  match goal with
  | |- context [while ?fuel ?c ?b ?s] =>
      let H := fresh "H" in
      assert (H : exists r, while fuel c b s = Some r);
      [ apply L; try lia; try reflexivity
      | destruct H as [r E]; rewrite E; cbn [bind] ]
  end.








End RoundedGenerators.

Section RoundedPage.
Variable rnd : R -> R.
Variables math_sqrt math_sin math_cos math_tan math_radians : R -> R.
Variable u : R.
Hypothesis u_range : 0 <= u <= 1 / 16.
Hypothesis rnd_error : forall x, Rabs (rnd x - x) <= u * Rabs x.
Hypothesis math_sqrt_3_pos : 0 < math_sqrt 3.
Hypothesis math_sin_60_pos : 0 < math_sin (math_radians 60).



End RoundedPage.



